(** * FlexMeasures / BVP: reporter configuration, public API endpoints and
      asset models

    A shallow embedding of the parts of the repository that the
    specification talks about:

    - the chaining validation of the Pandas reporter configuration
      ([PandasReporter]);
    - the public endpoints of [bvp/api/__init__.py] ([Api]);
    - the service listing and role-protected endpoints of
      [bvp/api/v1_1/routes.py] ([ApiV1_1]);
    - the constructors and the capacity factor of
      [bvp/data/models/assets.py] ([Inflection], [Assets]).

    Python dictionaries are finite maps ([gmap]), sets of dataframe names
    are [gset]s, Python floats are binary64 primitive floats. *)

From Stdlib Require Import Floats Ascii.
From stdpp Require Import gmap strings list pretty.

Set Warnings "-register-all,-clear-no-such-hyp".

Open Scope string_scope.

(** ** Results of fallible Python code *)

(** A Python computation either returns a value or raises. *)
Inductive result (E A : Type) : Type :=
| Ok (a : A)
| Raise (e : E).
Arguments Ok {E A} a.
Arguments Raise {E A} e.

#[global] Instance result_ret {E} : MRet (result E) := λ A a, Ok a.

#[global] Instance result_bind {E} : MBind (result E) := λ A B k r,
  match r with
  | Ok a => k a
  | Raise e => Raise e
  end.

(** ** The Pandas reporter configuration *)

Module PandasReporter.

(** One entry of ["beliefs_search_configs"], as the test writes it. *)
Record BeliefsSearchConfig := {
  sensor : nat;
  event_starts_after : option string;
  event_ends_before : option string;
}.

(** One entry of ["transformations"]; ["df_input"] and ["df_output"]
    may be left out. *)
Record Transformation := {
  df_input : option string;
  df_output : option string;
  method : string;
  args : list string;
}.

Record ReporterConfig := {
  beliefs_search_configs : list BeliefsSearchConfig;
  transformations : list Transformation;
  final_df_output : string;
}.

Inductive ValidationError := validation_error (msg : string).

(** The dataframe that a belief search yields is named after its
    sensor: the tests read sensor 1 under ["sensor_1"]. *)
Definition search_result_name (s : BeliefsSearchConfig) : string :=
  "sensor_" +:+ pretty (sensor s).

(** What the walk over the transformations carries along. *)
Record chain_state := {
  previous_df : option string;
  fake_data : gset string;
  final_df_output_method : option string;
}.

Definition resolve_input (prev : option string) (t : Transformation)
  : option string :=
  match df_input t with
  | Some i => Some i
  | None => prev
  end.

Definition resolve_output (prev : option string) (t : Transformation)
  : option string :=
  match df_output t with
  | Some o => Some o
  | None => resolve_input prev t
  end.

Definition add_df (o : option string) (s : gset string) : gset string :=
  match o with
  | Some n => {[ n ]} ∪ s
  | None => s
  end.

Definition chain_step (final : string) (st : chain_state)
    (t : Transformation) : chain_state :=
  let out := resolve_output (previous_df st) t in
  {| previous_df := out;
     fake_data := add_df out (fake_data st);
     final_df_output_method :=
       if decide (out = Some final) then Some (method t)
       else final_df_output_method st |}.

Definition initial_state (c : ReporterConfig) : chain_state :=
  {| previous_df := None;
     fake_data := list_to_set (search_result_name <$> beliefs_search_configs c);
     final_df_output_method := None |}.

Definition run_chain (c : ReporterConfig) : chain_state :=
  foldl (chain_step (final_df_output c)) (initial_state c)
        (transformations c).

(** Modelled from the spec: [PandasReporterConfigSchema] of
    [flexmeasures/data/schemas/reporting/pandas_reporter.py], which is
    missing from the sources (only [test_reporting.py] is there).
    Loading walks the transformations in order. A transformation that
    leaves out ["df_input"] reads the output of the one before it, one
    that leaves out ["df_output"] writes to its input.  The load is
    refused when the dataframe named by ["final_df_output"] is neither
    a belief-search result nor the output of a transformation, and when
    the last method applied to that dataframe is ["resample"].  The
    fields are taken as already deserialised. *)
Definition load (c : ReporterConfig) : result ValidationError ReporterConfig :=
  let st := run_chain c in
  if decide (final_df_output c ∈ fake_data st) then
    if decide (final_df_output_method st = Some "resample") then
      Raise (validation_error
        "resample cannot be the last method applied to the final output")
    else Ok c
  else
    Raise (validation_error
      "the final output dataframe is not generated by the pipeline").

(** The same pipeline read declaratively: the input and output
    dataframe of every transformation, in order. *)
Fixpoint resolved (prev : option string) (ts : list Transformation)
  : list (option string * option string) :=
  match ts with
  | [] => []
  | t :: ts' =>
      (resolve_input prev t, resolve_output prev t)
        :: resolved (resolve_output prev t) ts'
  end.

(** The dataframes that exist at some point of the pipeline. *)
Definition generated (c : ReporterConfig) : gset string :=
  list_to_set (search_result_name <$> beliefs_search_configs c)
  ∪ list_to_set (omap snd (resolved None (transformations c))).

(** The methods applied to dataframe [final], in order. *)
Fixpoint methods_on (final : string) (prev : option string)
    (ts : list Transformation) : list string :=
  match ts with
  | [] => []
  | t :: ts' =>
      let out := resolve_output prev t in
      (if decide (out = Some final) then [method t] else [])
        ++ methods_on final out ts'
  end.

Definition last_method_on (c : ReporterConfig) : option string :=
  last (methods_on (final_df_output c) None (transformations c)).

(** The dataframe written by the last transformation, if any. *)
Definition last_output (c : ReporterConfig) : option string :=
  from_option snd None (last (resolved None (transformations c))).

(** The configuration with one more transformation at the end. *)
Definition followed_by (c : ReporterConfig) (t : Transformation)
  : ReporterConfig :=
  {| beliefs_search_configs := beliefs_search_configs c;
     transformations := transformations c ++ [t];
     final_df_output := final_df_output c |}.

(** The four configurations of [test_pandas_reporter_schema]. *)
Definition search (n : nat) : BeliefsSearchConfig :=
  {| sensor := n;
     event_starts_after := Some "2022-01-01T00:00:00 00:00";
     event_ends_before := Some "2022-01-01T23:00:00 00:00" |}.

Definition tr (i o : option string) (m : string) (a : list string) :=
  {| df_input := i; df_output := o; method := m; args := a |}.

Definition test_config_1 : ReporterConfig :=
  {| beliefs_search_configs := [search 1];
     transformations :=
       [tr (Some "sensor_1") (Some "final_output") "copy" []];
     final_df_output := "final_output" |}.

Definition test_config_2 : ReporterConfig :=
  {| beliefs_search_configs := [search 1];
     transformations :=
       [tr (Some "sensor_1") (Some "output1") "copy" [];
        tr None None "copy" [];
        tr None (Some "final_output") "copy" []];
     final_df_output := "final_output" |}.

Definition test_config_3 : ReporterConfig :=
  {| beliefs_search_configs := [search 1; search 2];
     transformations :=
       [tr (Some "sensor_1") (Some "output1") "copy" [];
        tr None None "copy" [];
        tr None (Some "final_output") "resample" ["1h"]];
     final_df_output := "final_output" |}.

Definition test_config_4 : ReporterConfig :=
  {| beliefs_search_configs := [search 1; search 2];
     transformations :=
       [tr (Some "sensor_1") (Some "output1") "copy" [];
        tr None None "copy" [];
        tr None (Some "final_output") "resample" ["1h"];
        tr None None "sum" []];
     final_df_output := "final_output" |}.



End PandasReporter.

(** ** Python values, requests and responses *)

(** The values that JSON bodies and response dictionaries are made of. *)
Inductive pyval :=
| PyNone
| PyBool (b : bool)
| PyInt (z : Z)
| PyFloat (f : float)
| PyStr (s : string)
| PyList (l : list pyval)
| PyDict (d : gmap string pyval).

(** An exception; [str(e)] is its message. *)
Inductive exn := exception (msg : string).

Definition str_of_exn (e : exn) : string :=
  match e with exception msg => msg end.

(** [v == s] for a string [s]. *)
Definition py_eq_str (s : string) (v : pyval) : bool :=
  match v with
  | PyStr s' => bool_decide (s = s')
  | _ => false
  end.

(** [k in v]: key of a dict, element of a list, substring of a string;
    anything else is not iterable. *)
Definition py_contains (k : string) (v : pyval) : result exn bool :=
  match v with
  | PyDict d => Ok (bool_decide (is_Some (d !! k)))
  | PyList l => Ok (existsb (py_eq_str k) l)
  | PyStr s => Ok (bool_decide (is_Some (String.index 0 k s)))
  | _ => Raise (exception "argument is not iterable")
  end.

(** [v[k]] for a string [k]. *)
Definition py_getitem (v : pyval) (k : string) : result exn pyval :=
  match v with
  | PyDict d =>
      match d !! k with
      | Some x => Ok x
      | None => Raise (exception ("'" +:+ k +:+ "'"))
      end
  | PyList _ => Raise (exception "list indices must be integers or slices, not str")
  | PyStr _ => Raise (exception "string indices must be integers")
  | _ => Raise (exception "object is not subscriptable")
  end.

(** A row of the users table ([bvp/data/models/user.py]), with the fields
    that the endpoints read and the USEF roles that the role check
    reads. *)
Record User := {
  id : nat;
  email : string;
  password : string;
  roles : list string;
}.

(** [request.is_json] and [request.json]; the body of a request that
    announces JSON may fail to parse, and reading it then raises.  Only
    the fact that it raises is modelled: the text carried by the exception
    of [get_json] stands for whatever message werkzeug gives, and no
    property reads it. *)
Record Request := {
  is_json : bool;
  json : option pyval;
}.

Definition get_json (r : Request) : result exn pyval :=
  match json r with
  | Some v => Ok v
  | None => Raise (exception "400 Bad Request: Failed to decode JSON object")
  end.

(** What a view runs against: the request, the user of the session (if
    authenticated) and the users table. *)
Record Context := {
  request : Request;
  current_user : option User;
  users : list User;
}.

(** What a view returns: a dictionary, alone or with a status code. *)
Record Response := {
  body : gmap string pyval;
  status : option nat;
}.

(** [as_json] serves a dictionary returned alone with status 200. *)
Definition http_status (r : Response) : nat := default 200 (status r).

Definition is_error_response (r : Response) : Prop :=
  ∃ l, body r !! "errors" = Some (PyList l).

(** [Query.one_or_none()] *)
Definition one_or_none (rows : list User) : result exn (option User) :=
  match rows with
  | [] => Ok None
  | [u] => Ok (Some u)
  | _ => Raise (exception "Multiple rows were found for one_or_none()")
  end.

(** [User.query.filter_by(email=email)], for the values the database
    driver compares with a text column: a string selects the users with
    that address.  A value that is no string selects nobody here; what
    the driver itself makes of such a value (it may refuse to adapt a
    list or a dictionary, and the view then fails) is outside the
    model. *)
Definition filter_by_email (db : list User) (e : pyval) : list User :=
  filter (λ u, py_eq_str (email u) e = true) db.

(** ** Decorators of the API views *)

Module ApiCommon.

(** Modelled from the spec: [invalid_sender] of
    [bvp/api/common/responses.py], which is missing from the sources.
    The error is surfaced as a structured response with the
    domain-specific status [INVALID_SENDER], mapped to HTTP status 403. *)
Definition invalid_sender (allowed : list string) : Response :=
  {| body := {[ "status" := PyStr "INVALID_SENDER" ]}; status := Some 403 |}.

(** The response to a request without a valid authentication token, which
    the route documentation lists as [401: UNAUTHORIZED]. *)
Definition unauthorized : Response :=
  {| body := {[ "status" := PyStr "UNAUTHORIZED" ]}; status := Some 401 |}.

Record Service := {
  name : string;
  access : list string;
  description : string;
}.

Record ServiceListing := {
  version : string;
  services : list Service;
}.

(** Modelled from the spec: [check_access] of
    [bvp/api/common/utils/api_utils.py], which is missing from the
    sources: the ["access"] list of the service of that name in the
    listing. *)
Definition check_access (listing : ServiceListing) (service_name : string)
  : option (list string) :=
  access <$> find (λ s, bool_decide (name s = service_name)) (services listing).

(** Whether the user holds one of the accepted roles. *)
Definition has_accepted_role (accepted : list string) (u : User) : bool :=
  existsb (λ r, bool_decide (r ∈ accepted)) (roles u).

Inductive Decorator :=
| as_json
| auth_token_required
| as_response_type (t : string)
| usef_roles_accepted (accepted : list string)
| append_doc_of.

Definition View := Context → Response.

(** What each decorator does to the view under it. [as_json] and
    [append_doc_of] leave the returned dictionary as it is;
    [auth_token_required] answers 401 unless the request is authenticated;
    [as_response_type] adds the ["type"] field that the tests read on
    every response.
    Modelled from the spec: [usef_roles_accepted] of
    [bvp/api/common/utils/validators.py], which is missing from the
    sources: a sender holding none of the accepted USEF roles receives
    the [INVALID_SENDER] error. *)
Definition decorate (d : Decorator) (f : View) : View :=
  match d with
  | as_json => f
  | append_doc_of => f
  | auth_token_required => λ ctx,
      match current_user ctx with
      | Some _ => f ctx
      | None => unauthorized
      end
  | as_response_type t => λ ctx,
      let r := f ctx in
      {| body := <[ "type" := PyStr t ]> (body r); status := status r |}
  | usef_roles_accepted accepted => λ ctx,
      match current_user ctx with
      | Some u =>
          if has_accepted_role accepted u then f ctx
          else invalid_sender accepted
      | None => invalid_sender accepted
      end
  end.

(** A registered route: the decorators are listed as in the source, the
    outermost first. *)
Record Route := {
  rule : string;
  methods : list string;
  decorators : list Decorator;
  view : View;
}.

Definition dispatch (r : Route) : View := foldr decorate (view r) (decorators r).

End ApiCommon.

(** ** bvp/api/__init__.py *)

Module Api.
Import ApiCommon.

(** The blueprint is registered under this prefix. *)
Definition url_prefix : string := "/api".

Section endpoints.

(** [flask_security.utils.verify_password], [User.get_auth_token] and
    Python's [str] belong to libraries and are taken as given. *)
Variable verify_password : pyval → string → result exn bool.
Variable get_auth_token : User → string.
Variable py_str : pyval → string.

Definition errors (msg : string) (code : option nat) : Response :=
  {| body := {[ "errors" := PyList [PyStr msg] ]}; status := code |}.

(** [current_user.is_authenticated and current_user.email == email]:
    the user of the session when the test holds. *)
Definition session_user (ctx : Context) (email_ : pyval) : option User :=
  match current_user ctx with
  | Some cu => if py_eq_str (email cu) email_ then Some cu else None
  | None => None
  end.

(** The part of [request_auth_token] that finds the user: [inl] is a
    response returned from inside the [else] branch, [inr] the user that
    the function goes on with. *)
Definition find_user (ctx : Context) (j email_ : pyval)
  : result exn (Response + User) :=
  match session_user ctx email_ with
  | Some cu => Ok (inr cu)
  | None =>
      user ← one_or_none (filter_by_email (users ctx) email_);
      match user with
      | None =>
          Ok (inl (errors ("User with email '" +:+ py_str email_
                           +:+ "' does not exist") (Some 404)))
      | Some u =>
          has_pw ← py_contains "password" j;
          if negb has_pw then
            Ok (inl (errors "Please provide the 'password' parameter." None))
          else
            pw ← py_getitem j "password";
            ok ← verify_password pw (password u);
            if negb ok then
              Ok (inl (errors "User password does not match." (Some 401)))
            else Ok (inr u)
      end
  end.

(** The body of the [try] block. *)
Definition request_auth_token_try (ctx : Context) : result exn Response :=
  if negb (is_json (request ctx)) then
    Ok (errors "Content-type of request must be application/json" (Some 400))
  else
    j ← get_json (request ctx);
    has_email ← py_contains "email" j;
    if negb has_email then
      Ok (errors "Please provide the 'email' parameter." (Some 400))
    else
      email_ ← py_getitem j "email";
      found ← find_user ctx j email_;
      match found with
      | inl early => Ok early
      | inr user =>
          let token := get_auth_token user in
          Ok {| body := {[ "auth_token" := PyStr token;
                           "user_id" := PyInt (Z.of_nat (id user)) ]};
                status := None |}
      end.

(** [request_auth_token], with its [except Exception] handler. *)
Definition request_auth_token (ctx : Context) : Response :=
  match request_auth_token_try ctx with
  | Ok r => r
  | Raise e => errors (str_of_exn e) (Some 500)
  end.

Definition route_request_auth_token : Route :=
  {| rule := "/requestAuthToken"; methods := ["POST"];
     decorators := [as_json]; view := request_auth_token |}.

End endpoints.

(** [get_versions] *)
Definition get_versions (ctx : Context) : Response :=
  {| body :=
       {[ "message" := PyStr
            ("For these API versions a public endpoint is available, listing its service. For example: "
             +:+ "/api/v1/getService and /api/v1_1/getService. An authentication token can be requested at: "
             +:+ "/api/requestAuthToken");
          "versions" := PyList [PyStr "v1"; PyStr "v1_1"; PyStr "v1_2"; PyStr "v1_3"] ]};
     status := None |}.

Definition route_get_versions : Route :=
  {| rule := "/"; methods := ["GET"];
     decorators := [as_json]; view := get_versions |}.

End Api.

(** ** bvp/api/v1_1/routes.py *)

Module ApiV1_1.
Import ApiCommon.

Definition six_roles : list string :=
  ["Aggregator"; "Supplier"; "MDC"; "DSO"; "Prosumer"; "ESCo"].

Definition service_listing : ServiceListing :=
  {| version := "1.1";
     services :=
       [ {| name := "getMeterData";
            access := ["Aggregator"; "Supplier"; "MDC"; "DSO"; "Prosumer"; "ESCo"];
            description := "Request meter reading" |};
         {| name := "postMeterData";
            access := ["MDC"];
            description := "Send meter reading" |};
         {| name := "getPrognosis";
            access := ["Aggregator"; "Supplier"; "MDC"; "DSO"; "Prosumer"; "ESCo"];
            description := "Request load planning" |};
         {| name := "postPrognosis";
            access := ["Aggregator"; "Supplier"; "MDC"; "DSO"; "Prosumer"; "ESCo"];
            description := "Send prediction" |};
         {| name := "postUdiEvent";
            access := ["Prosumer"; "ESCo"];
            description :=
              "Send a description of some flexible consumption or production process as a USEF Device "
              +:+ "Interface (UDI) event, including device capabilities (control constraints)" |};
         {| name := "getDeviceMessage";
            access := ["Prosumer"; "ESCo"];
            description :=
              "Get an Active Demand & Supply (ADS) request for a certain type of control action, "
              +:+ "including control set points" |} ] |}.

(** [*check_access(service_listing, name)] as the decorators receive it. *)
Definition accepted_roles (service_name : string) : list string :=
  default [] (check_access service_listing service_name).

Section endpoints.

(** The implementations that the views delegate to live in
    [bvp/api/v1/routes.py] and [bvp/api/v1_1/implementations.py]. *)
Variable get_prognosis_response : View.
Variable routes_get_meter_data : View.
Variable routes_post_meter_data : View.

Definition get_prognosis : Route :=
  {| rule := "/getPrognosis"; methods := ["GET"];
     decorators :=
       [as_response_type "GetPrognosisResponse";
        auth_token_required;
        usef_roles_accepted (accepted_roles "getPrognosis")];
     view := get_prognosis_response |}.

Definition get_meter_data : Route :=
  {| rule := "/getMeterData"; methods := ["GET"];
     decorators :=
       [as_response_type "GetMeterDataResponse";
        auth_token_required;
        usef_roles_accepted (accepted_roles "getMeterData");
        append_doc_of];
     view := routes_get_meter_data |}.

Definition post_meter_data : Route :=
  {| rule := "/postMeterData"; methods := ["POST"];
     decorators :=
       [as_response_type "PostMeterDataResponse";
        auth_token_required;
        usef_roles_accepted (accepted_roles "postMeterData");
        append_doc_of];
     view := routes_post_meter_data |}.

End endpoints.

End ApiV1_1.

(** ** Python strings and the [inflection] package *)

(** Strings are taken as ASCII text: the character classes and case
    mappings below are those of Python restricted to ASCII, and every
    other byte is left alone and is not a word character. *)
Module PyString.

Definition code (c : ascii) : nat := nat_of_ascii c.

Definition between (lo hi : nat) (c : ascii) : bool :=
  Nat.leb lo (code c) && Nat.leb (code c) hi.

Definition is_upper (c : ascii) : bool := between 65 90 c.
Definition is_lower (c : ascii) : bool := between 97 122 c.
Definition is_digit (c : ascii) : bool := between 48 57 c.

Definition is_alnum (c : ascii) : bool :=
  is_upper c || is_lower c || is_digit c.

(** The class [\w]. *)
Definition is_word (c : ascii) : bool :=
  is_alnum c || bool_decide (c = "_"%char).

Definition to_lower (c : ascii) : ascii :=
  if is_upper c then ascii_of_nat (code c + 32) else c.

Definition to_upper (c : ascii) : ascii :=
  if is_lower c then ascii_of_nat (code c - 32) else c.

Fixpoint map_chars (f : ascii → ascii) (s : string) : string :=
  match s with
  | EmptyString => EmptyString
  | String c s' => String (f c) (map_chars f s')
  end.

(** [str.lower()] *)
Definition lower (s : string) : string := map_chars to_lower s.

Definition head (s : string) : option ascii :=
  match s with
  | EmptyString => None
  | String c _ => Some c
  end.

Definition holds (p : ascii → bool) (c : option ascii) : bool :=
  match c with
  | Some x => p x
  | None => false
  end.

(** [s.replace(old, new)] for a non-empty [old]: the occurrences of [old]
    are taken from left to right without overlap; [skip] counts the
    characters of an occurrence still to be dropped. *)
Fixpoint replace_from (old new : string) (skip : nat) (s : string) : string :=
  match s with
  | EmptyString => EmptyString
  | String c s' =>
      match skip with
      | S k => replace_from old new k s'
      | O =>
          if String.prefix old s
          then new +:+ replace_from old new (String.length old - 1) s'
          else String c (replace_from old new 0 s')
      end
  end.

Definition replace (old new s : string) : string := replace_from old new 0 s.

Definition newline : string := String (ascii_of_nat 10) EmptyString.

End PyString.

Module Inflection.
Import PyString.

(** [re.sub(r"([A-Z]+)([A-Z][a-z])", r'\1_\2', word)]: a match is a run of
    at least two capitals followed by a small letter, and the underscore
    goes before the last capital of the run; so an underscore is put
    before every capital that follows a capital and precedes a small
    letter. [prev] is the character before [s]. *)
Fixpoint split_acronyms (prev : option ascii) (s : string) : string :=
  match s with
  | EmptyString => EmptyString
  | String c s' =>
      let rest := String c (split_acronyms (Some c) s') in
      if holds is_upper prev && is_upper c && holds is_lower (head s')
      then String "_" rest else rest
  end.

(** [re.sub(r"([a-z\d])([A-Z])", r'\1_\2', word)]: an underscore between
    a small letter or digit and the capital after it. *)
Fixpoint split_camel (prev : option ascii) (s : string) : string :=
  match s with
  | EmptyString => EmptyString
  | String c s' =>
      let rest := String c (split_camel (Some c) s') in
      if holds (λ p, is_lower p || is_digit p) prev && is_upper c
      then String "_" rest else rest
  end.

(** [inflection.underscore] *)
Definition underscore (word : string) : string :=
  let word := split_acronyms None word in
  let word := split_camel None word in
  let word := replace "-" "_" word in
  lower word.

(** [re.sub(r"_id$", "", word)]: [$] is the end of the string, or the
    place before a newline that ends the string. *)
Fixpoint strip_id (s : string) : string :=
  match s with
  | EmptyString => EmptyString
  | String c s' =>
      if bool_decide (s = "_id") then EmptyString
      else if bool_decide (s = "_id" +:+ newline) then newline
      else String c (strip_id s')
  end.

(** [re.sub(r"^\w", lambda m: m.group(0).upper(), word)] *)
Definition upper_first (s : string) : string :=
  match s with
  | EmptyString => EmptyString
  | String c s' => if is_word c then String (to_upper c) s' else s
  end.

(** [inflection.humanize]; the third substitution of the source puts
    every run of letters and digits in lower case. *)
Definition humanize (word : string) : string :=
  let word := strip_id word in
  let word := replace "_" " " word in
  let word := lower word in
  upper_first word.

(** [re.sub(r"\b('?\w)", lambda match: match.group(1).capitalize(), s)]:
    a match starts at a word boundary.  A word character at the start of
    a word is put in upper case, unless an apostrophe that follows a word
    character stands before it: then the match started at the apostrophe,
    covers both, and [capitalize] puts the character in lower case.
    [prev2] and [prev1] are the two characters before [s]. *)
Fixpoint capitalize_words (prev2 prev1 : option ascii) (s : string) : string :=
  match s with
  | EmptyString => EmptyString
  | String c s' =>
      let c' :=
        if is_word c && negb (holds is_word prev1) then
          if bool_decide (prev1 = Some "'"%char) && holds is_word prev2
          then to_lower c else to_upper c
        else c in
      String c' (capitalize_words prev1 (Some c) s')
  end.

(** [str.title()]: a letter that does not follow a letter is put in upper
    case, a letter that follows a letter in lower case, and every other
    character is kept; [cased] tells whether the character before [s] is
    a letter. *)
Fixpoint title_from (cased : bool) (s : string) : string :=
  match s with
  | EmptyString => EmptyString
  | String c s' =>
      if is_lower c then
        String (if cased then c else to_upper c) (title_from true s')
      else if is_upper c then
        String (if cased then to_lower c else c) (title_from true s')
      else String c (title_from false s')
  end.

Definition title (s : string) : string := title_from false s.

(** [inflection.titleize], as of inflection 0.4.0:
    [re.sub(r"\b('?\w)", ..., humanize(underscore(word)).title())]. *)
Definition titleize (word : string) : string :=
  capitalize_words None None (title (humanize (underscore word))).

(** The names that [underscore] turns into ["_id"]. *)
Definition id_names : list string :=
  ["_id"; "-id"; "_Id"; "-Id"; "_ID"; "-ID"].

End Inflection.

(** ** bvp/data/models/assets.py *)

Module Assets.
Import PyString.

(** A number returned by a Python function: an [int] or a [float]. *)
Inductive number :=
| Int (z : Z)
| Float (f : float).

Record AssetType := {
  type_name : string;
  type_display_name : option string;
  is_consumer : bool;
  is_producer : bool;
}.

(** The keyword arguments of [AssetType(...)]: [at_display_name] is [None]
    when the keyword is not given, and [Some None] for
    [display_name=None]. *)
Record AssetTypeKwargs := {
  at_name : option string;
  at_display_name : option (option string);
  at_is_consumer : bool;
  at_is_producer : bool;
}.

(** [AssetType.__init__]; calling [replace] on a missing name raises. *)
Definition AssetType_init (kwargs : AssetTypeKwargs) : result exn AssetType :=
  match at_name kwargs with
  | None =>
      Raise (exception "'NoneType' object has no attribute 'replace'")
  | Some n =>
      let name := lower (replace " " "_" n) in
      Ok {| type_name := name;
            type_display_name :=
              match at_display_name kwargs with
              | None => Some (Inflection.humanize name)
              | Some given => given
              end;
            is_consumer := at_is_consumer kwargs;
            is_producer := at_is_producer kwargs |}
  end.

Record Asset := {
  name : string;
  display_name : option string;
  asset_type_name : string;
  unit : string;
  capacity_in_mw : float;
  latitude : float;
  longitude : float;
}.

(** The keyword arguments of [Asset(...)]; an attribute that is not given
    reads as [None] after the base constructor has run. *)
Record AssetKwargs := {
  kw_name : option string;
  kw_display_name : option string;
  kw_asset_type_name : string;
  kw_unit : string;
  kw_capacity_in_mw : float;
  kw_latitude : float;
  kw_longitude : float;
}.

(** [Asset.__init__] *)
Definition Asset_init (kwargs : AssetKwargs) : result exn Asset :=
  match kw_name kwargs with
  | None =>
      Raise (exception "'NoneType' object has no attribute 'replace'")
  | Some n =>
      let name := replace " (MW)" "" n in
      Ok {| name := name;
            display_name :=
              match kw_display_name kwargs with
              | None => Some (Inflection.titleize name)
              | Some d =>
                  if bool_decide (d = "") then Some (Inflection.titleize name)
                  else Some d
              end;
            asset_type_name := kw_asset_type_name kwargs;
            unit := kw_unit kwargs;
            capacity_in_mw := kw_capacity_in_mw kwargs;
            latitude := kw_latitude kwargs;
            longitude := kw_longitude kwargs |}
  end.

Section capacity_factor.

(** Python's [round(x, 2)] on floats. *)
Variable round2 : float → float.

(** The conversion that a division applies to an [int] operand: the
    nearest float, or an OverflowError when the integer lies beyond the
    range of floats. *)
Definition float_of_int (z : Z) : result exn float :=
  let f := SF2Prim (binary_normalize prec emax z 0 false) in
  if PrimFloat.is_infinity f
  then Raise (exception "int too large to convert to float")
  else Ok f.

Definition as_float (n : number) : result exn float :=
  match n with
  | Int z => float_of_int z
  | Float f => Ok f
  end.

(** [a / b] for a float [b]: the operand [a] is converted first, then a
    zero divisor raises. *)
Definition truediv (a : number) (b : float) : result exn float :=
  x ← as_float a;
  if PrimFloat.eqb b 0 then Raise (exception "float division by zero")
  else Ok (x / b)%float.

(** [min(x, 100)]: the second argument is returned when it is smaller
    than the first, else the first. *)
Definition min_100 (x : float) : number :=
  if PrimFloat.ltb 100 x then Int 100 else Float x.

(** [Asset.capacity_factor_in_percent_for]; the capacity is a float, as
    the column declares it, and the load is any number. *)
Definition capacity_factor_in_percent_for (self : Asset) (load_in_mw : number)
  : result exn number :=
  if PrimFloat.eqb (capacity_in_mw self) 0 then Ok (Int 0)
  else
    ratio ← truediv load_in_mw (capacity_in_mw self);
    Ok (min_100 (round2 (ratio * 100)%float)).

End capacity_factor.

(** [n > 100] *)
Definition exceeds_100 (n : number) : bool :=
  match n with
  | Int z => (100 <? z)%Z
  | Float f => PrimFloat.ltb 100 f
  end.

End Assets.

(** ** Predicates on strings *)

Module StringPredicates.
Import PyString.

(** Every character of the string satisfies [p]. *)
Fixpoint all_chars (p : ascii → bool) (s : string) : bool :=
  match s with
  | EmptyString => true
  | String c s' => p c && all_chars p s'
  end.

Definition is_not (x : ascii) (c : ascii) : bool := negb (bool_decide (c = x)).

(** [old in s] *)
Fixpoint occurs (old s : string) : bool :=
  String.prefix old s ||
  match s with
  | EmptyString => false
  | String _ s' => occurs old s'
  end.

(** A stored name: no space and no ASCII capital. *)
Definition normalised (s : string) : bool :=
  all_chars (λ c, negb (is_upper c) && is_not " " c) s.

End StringPredicates.

(** ** More of bvp/data/models/assets.py *)

Module AssetViews.
Import Assets.

(** [AssetType.icon_name]; the function falls off its end, and so returns
    [None], for any other name. *)
Definition icon_name (t : AssetType) : option string :=
  if decide (type_name t = "solar") then Some "icon-solar"
  else if decide (type_name t = "wind") then Some "icon-wind"
  else if decide (type_name t ∈
                    ["charging_station"; "bidirectional_charging_station"])
  then Some "icon-charging_station"
  else if decide (type_name t = "battery") then Some "icon-battery"
  else if decide (type_name t = "building") then Some "icon-building"
  else None.

(** [AssetType.weather_correlations] *)
Definition weather_correlations (t : AssetType) : list string :=
  let correlations : list string := [] in
  let correlations :=
    if decide (type_name t = "solar") then (correlations ++ ["radiation"])%list
    else correlations in
  let correlations :=
    if decide (type_name t = "wind") then (correlations ++ ["wind_speed"])%list
    else correlations in
  let correlations :=
    if decide (type_name t ∈
                 ["charging_station"; "bidirectional_charging_station";
                  "battery"; "building"])
    then (correlations ++ ["temperature"])%list
    else correlations in
  correlations.

(** [Asset.is_pure_consumer] and [Asset.is_pure_producer], on the type of
    the asset. *)
Definition is_pure_consumer (t : AssetType) : bool :=
  is_consumer t && negb (is_producer t).

Definition is_pure_producer (t : AssetType) : bool :=
  is_producer t && negb (is_consumer t).

(** [Asset.asset_type_display_name] *)
Definition asset_type_display_name (a : Asset) : string :=
  Inflection.titleize (asset_type_name a).

End AssetViews.

(** ** bvp/data/models/weather.py *)

Module Weather.
Import PyString.

Record WeatherSensorType := {
  type_name : string;
  type_display_name : option string;
}.

Record WeatherSensorTypeKwargs := {
  wt_name : option string;
  wt_display_name : option (option string);
}.

Section sensor_type.

(** [humanize] of [bvp/utils/bvp_inflection.py], which is not among the
    sources. *)
Variable humanize : string → string.

(** [WeatherSensorType.__init__] *)
Definition WeatherSensorType_init (kwargs : WeatherSensorTypeKwargs)
  : result exn WeatherSensorType :=
  match wt_name kwargs with
  | None =>
      Raise (exception "'NoneType' object has no attribute 'replace'")
  | Some n =>
      let name := lower (replace " " "_" n) in
      Ok {| type_name := name;
            type_display_name :=
              match wt_display_name kwargs with
              | None => Some (humanize name)
              | Some given => given
              end |}
  end.

End sensor_type.

(** [WeatherSensorType.icon_name]: the empty string for any other name. *)
Definition icon_name (t : WeatherSensorType) : string :=
  if decide (type_name t = "radiation") then "wi wi-horizon-alt"
  else if decide (type_name t = "temperature") then "wi wi-thermometer"
  else if decide (type_name t = "wind_direction") then "wi wi-wind-direction"
  else if decide (type_name t = "wind_speed") then "wi wi-strong-wind"
  else "".

Record WeatherSensor := {
  name : string;
  display_name : option string;
  weather_sensor_type_name : string;
  unit : string;
  latitude : float;
  longitude : float;
}.

Record WeatherSensorKwargs := {
  ws_name : option string;
  ws_display_name : option string;
  ws_weather_sensor_type_name : string;
  ws_unit : string;
  ws_latitude : float;
  ws_longitude : float;
}.

(** [WeatherSensor.__init__] *)
Definition WeatherSensor_init (kwargs : WeatherSensorKwargs)
  : result exn WeatherSensor :=
  match ws_name kwargs with
  | None =>
      Raise (exception "'NoneType' object has no attribute 'replace'")
  | Some n =>
      Ok {| name := lower (replace " " "_" n);
            display_name := ws_display_name kwargs;
            weather_sensor_type_name := ws_weather_sensor_type_name kwargs;
            unit := ws_unit kwargs;
            latitude := ws_latitude kwargs;
            longitude := ws_longitude kwargs |}
  end.

(** [WeatherSensor.to_dict] *)
Definition to_dict (sensor : WeatherSensor) : gmap string pyval :=
  {[ "name" := PyStr (name sensor);
     "sensor_type" := PyStr (weather_sensor_type_name sensor) ]}.

End Weather.

(** ** Migration 7113b0f00678 *)

Module Migration.

Record Column := {
  col_type : string;
  nullable : bool;
  autoincrement : bool;
  server_default : option string;
}.

(** A table: its columns, its primary key constraint, the number of its
    rows and the columns in which some row holds NULL. *)
Record Table := {
  columns : gmap string Column;
  primary_key : option (string * list string);
  rows : nat;
  nulls : gset string;
}.

Definition with_nullable (b : bool) (c : Column) : Column :=
  {| col_type := col_type c; nullable := b;
     autoincrement := autoincrement c; server_default := server_default c |}.

Definition set_nullable (column : string) (b : bool) (t : Table) : Table :=
  {| columns := alter (with_nullable b) column (columns t);
     primary_key := primary_key t; rows := rows t; nulls := nulls t |}.

(** [op.drop_table]: the table must exist. *)
Definition drop_table (name : string) (s : gmap string Table)
  : result exn (gmap string Table) :=
  match s !! name with
  | Some _ => Ok (delete name s)
  | None => Raise (exception ("table " +:+ name +:+ " does not exist"))
  end.

(** [op.alter_column(table, column, nullable=b)]: the table and the
    column must exist, and a column that holds NULL cannot be made NOT
    NULL. *)
Definition alter_column (table column : string) (b : bool)
    (s : gmap string Table) : result exn (gmap string Table) :=
  match s !! table with
  | None => Raise (exception ("relation " +:+ table +:+ " does not exist"))
  | Some t =>
      match columns t !! column with
      | None =>
          Raise (exception ("column " +:+ column +:+ " does not exist"))
      | Some _ =>
          if negb b && bool_decide (column ∈ nulls t)
          then Raise (exception ("column " +:+ column
                                 +:+ " contains null values"))
          else Ok (<[ table := set_nullable column b t ]> s)
      end
  end.

(** [op.create_table]: the name must be free; the new table is empty. *)
Definition create_table (name : string) (cols : list (string * Column))
    (pk : string * list string) (s : gmap string Table)
  : result exn (gmap string Table) :=
  match s !! name with
  | Some _ => Raise (exception ("relation " +:+ name +:+ " already exists"))
  | None =>
      Ok (<[ name := {| columns := list_to_map cols; primary_key := Some pk;
                        rows := 0; nulls := ∅ |} ]> s)
  end.

Definition column (type : string) (autoinc null : bool) : Column :=
  {| col_type := type; nullable := null; autoincrement := autoinc;
     server_default := None |}.

(** The columns with which [downgrade] recreates [forecasting_job]. *)
Definition forecasting_job_columns : list (string * Column) :=
  [ ("id", column "INTEGER" true false);
    ("timed_value_type", column "VARCHAR(30)" false false);
    ("asset_id", column "INTEGER" false false);
    ("start", column "TIMESTAMP WITH TIME ZONE" false false);
    ("end", column "TIMESTAMP WITH TIME ZONE" false false);
    ("horizon", column "INTERVAL" false false);
    ("in_progress_since", column "TIMESTAMP WITH TIME ZONE" false true) ].

Definition forecasting_job : Table :=
  {| columns := list_to_map forecasting_job_columns;
     primary_key := Some ("forecasting_job_pkey", ["id"]);
     rows := 0; nulls := ∅ |}.

(** The tables whose [display_name] the migration touches. *)
Definition display_name_tables : list string :=
  ["asset_type"; "market"; "market_type"; "weather_sensor_type"].

(** [upgrade] *)
Definition upgrade (s : gmap string Table) : result exn (gmap string Table) :=
  s ← drop_table "forecasting_job" s;
  s ← alter_column "asset_type" "display_name" true s;
  s ← alter_column "market" "display_name" true s;
  s ← alter_column "market_type" "display_name" true s;
  alter_column "weather_sensor_type" "display_name" true s.

(** [downgrade] *)
Definition downgrade (s : gmap string Table) : result exn (gmap string Table) :=
  s ← alter_column "weather_sensor_type" "display_name" false s;
  s ← alter_column "market_type" "display_name" false s;
  s ← alter_column "market" "display_name" false s;
  s ← alter_column "asset_type" "display_name" false s;
  create_table "forecasting_job" forecasting_job_columns
    ("forecasting_job_pkey", ["id"]) s.

(** A table with a [display_name] column. *)
Definition has_display_name (s : gmap string Table) (table : string) : Prop :=
  ∃ t, s !! table = Some t ∧ is_Some (columns t !! "display_name").

(** A schema to try the migration on: the four tables with a NOT NULL
    [display_name], and a [forecasting_job] table holding some rows. *)
Definition named_table : Table :=
  {| columns :=
       {[ "name" := column "VARCHAR(80)" false false;
          "display_name" :=
            {| col_type := "VARCHAR(80)"; nullable := false;
               autoincrement := false;
               server_default := Some "''::character varying" |} ]};
     primary_key := Some ("pkey", ["name"]); rows := 3; nulls := ∅ |}.

Definition schema_before : gmap string Table :=
  {[ "forecasting_job" :=
       {| columns := list_to_map forecasting_job_columns;
          primary_key := Some ("forecasting_job_pkey", ["id"]);
          rows := 12; nulls := {[ "in_progress_since" ]} |};
     "asset_type" := named_table;
     "market" := named_table;
     "market_type" := named_table;
     "weather_sensor_type" := named_table ]}.

End Migration.

(** ** Users and requests of the tests *)

Module Fixtures.

(** The users that the API tests log in: a prosumer, and a user without
    any USEF role. *)
Definition test_prosumer : User :=
  {| id := 1; email := "test_prosumer@seita.nl"; password := "testtest";
     roles := ["Prosumer"] |}.

Definition test_user : User :=
  {| id := 2; email := "test_user@seita.nl"; password := "testtest";
     roles := [] |}.

Definition test_users : list User := [test_prosumer; test_user].

(** Stand-ins for the library functions: passwords stored in clear, a
    token that names the user, [str] of a string. *)
Definition plain_verify (pw : pyval) (stored : string) : result exn bool :=
  match pw with
  | PyStr s => Ok (bool_decide (s = stored))
  | _ => Raise (exception "password must be a string")
  end.

Definition token_of (u : User) : string := "token-" +:+ pretty (id u).

Definition str_of (v : pyval) : string :=
  match v with
  | PyStr s => s
  | _ => "?"
  end.

Definition json_request (fields : gmap string pyval) : Request :=
  {| is_json := true; json := Some (PyDict fields) |}.

(** [test_user] asks for a token with a wrong password, from a session in
    which they are logged in already. *)
Definition ctx_session_wrong_password : Context :=
  {| request := json_request {[ "email" := PyStr "test_user@seita.nl";
                                "password" := PyStr "wrong" ]};
     current_user := Some test_user;
     users := test_users |}.

(** The same request from an anonymous session. *)
Definition ctx_wrong_password : Context :=
  {| request := json_request {[ "email" := PyStr "test_user@seita.nl";
                                "password" := PyStr "wrong" ]};
     current_user := None;
     users := test_users |}.

(** A request that names [test_user] and carries no password. *)
Definition ctx_no_password : Context :=
  {| request := json_request {[ "email" := PyStr "test_user@seita.nl" ]};
     current_user := None;
     users := test_users |}.

(** A request of [test_user] carrying a valid token, as in
    [test_invalid_sender_and_logout]. *)
Definition ctx_test_user : Context :=
  {| request := {| is_json := false; json := None |};
     current_user := Some test_user;
     users := test_users |}.

(** An implementation that answers every request as processed. *)
Definition processed : ApiCommon.View := λ _,
  {| body := {[ "status" := PyStr "PROCESSED" ]}; status := Some 200 |}.

(** Keyword arguments of an asset with the given name and display name. *)
Definition asset_kwargs (n d : option string) : Assets.AssetKwargs :=
  {| Assets.kw_name := n; Assets.kw_display_name := d;
     Assets.kw_asset_type_name := "solar"; Assets.kw_unit := "MW";
     Assets.kw_capacity_in_mw := 2; Assets.kw_latitude := 33;
     Assets.kw_longitude := 126 |}.

Definition asset_type_kwargs (n : option string) (d : option (option string))
  : Assets.AssetTypeKwargs :=
  {| Assets.at_name := n; Assets.at_display_name := d;
     Assets.at_is_consumer := false; Assets.at_is_producer := true |}.

End Fixtures.

(** ** The outcomes of [request_auth_token] *)

Module ApiOutcomes.

Section outcomes.

Variable verify_password : pyval → string → result exn bool.
Variable get_auth_token : User → string.
Variable py_str : pyval → string.

(** The dictionary returned on success. *)
Definition token_response (u : User) : Response :=
  {| body := {[ "auth_token" := PyStr (get_auth_token u);
                "user_id" := PyInt (Z.of_nat (id u)) ]};
     status := None |}.

(** The ways in which the search for the user can end: the user of the
    session, a user of the table whose password verifies, one of the three
    early returns, or an exception. *)
Inductive find_user_outcome (ctx : Context) (j e_ : pyval)
  : result exn (Response + User) → Prop :=
| found_in_session u :
    current_user ctx = Some u → e_ = PyStr (email u) →
    find_user_outcome ctx j e_ (Ok (inr u))
| found_in_database u pw :
    Api.session_user ctx e_ = None →
    filter_by_email (users ctx) e_ = [u] →
    py_contains "password" j = Ok true →
    py_getitem j "password" = Ok pw →
    verify_password pw (password u) = Ok true →
    find_user_outcome ctx j e_ (Ok (inr u))
| unknown_email :
    Api.session_user ctx e_ = None →
    filter_by_email (users ctx) e_ = [] →
    find_user_outcome ctx j e_
      (Ok (inl (Api.errors ("User with email '" +:+ py_str e_
                            +:+ "' does not exist") (Some 404))))
| missing_password u :
    Api.session_user ctx e_ = None →
    filter_by_email (users ctx) e_ = [u] →
    py_contains "password" j = Ok false →
    find_user_outcome ctx j e_
      (Ok (inl (Api.errors "Please provide the 'password' parameter." None)))
| wrong_password u pw :
    Api.session_user ctx e_ = None →
    filter_by_email (users ctx) e_ = [u] →
    py_getitem j "password" = Ok pw →
    verify_password pw (password u) = Ok false →
    find_user_outcome ctx j e_
      (Ok (inl (Api.errors "User password does not match." (Some 401))))
| find_user_raises e :
    Api.session_user ctx e_ = None →
    find_user_outcome ctx j e_ (Raise e).

End outcomes.

End ApiOutcomes.

(** ** More requests *)

Module Requests.
Import Fixtures.

(** [test_user] asks for a token with the right password. *)
Definition ctx_right_password : Context :=
  {| request := json_request {[ "email" := PyStr "test_user@seita.nl";
                                "password" := PyStr "testtest" ]};
     current_user := None;
     users := test_users |}.

(** A request whose JSON body is not an object. *)
Definition ctx_body (j : pyval) : Context :=
  {| request := {| is_json := true; json := Some j |};
     current_user := None;
     users := test_users |}.

(** A users table in which the email of [test_user] occurs twice. *)
Definition ctx_duplicate_email : Context :=
  {| request := json_request {[ "email" := PyStr "test_user@seita.nl";
                                "password" := PyStr "testtest" ]};
     current_user := None;
     users := test_users ++ [ {| id := 3; email := "test_user@seita.nl";
                                 password := "other"; roles := [] |} ] |}.

(** A password check that fails for want of a hashing backend. *)
Definition broken_verify (pw : pyval) (stored : string) : result exn bool :=
  Raise (exception "hash could not be identified").

End Requests.

(** ** Registration of the API ([register_at] of bvp/api/__init__.py) *)

Module Registration.

(** What registering does to the application, as the calls it makes: the
    marshmallow extension is initialised, a blueprint is registered under
    a prefix, the [register_at] of another package is called. *)
Inductive registration :=
| init_app
| register_blueprint (name url_prefix : string)
| register_package (package : string).

#[global] Instance registration_eq_dec : EqDecision registration.
Proof. solve_decision. Defined.

Record App := {
  config : gmap string pyval;
  registered : list registration;
}.

Definition record (r : registration) (app : App) : App :=
  {| config := config app; registered := registered app ++ [r] |}.

(** [app.config.get(key, default)] *)
Definition config_get (app : App) (key : string) (fallback : pyval) : pyval :=
  default fallback (config app !! key).

(** [v is True] *)
Definition is_True (v : pyval) : bool :=
  match v with
  | PyBool true => true
  | _ => false
  end.

Definition version_packages : list string :=
  ["bvp.api.v1"; "bvp.api.v1_1"; "bvp.api.v1_2"; "bvp.api.v1_3"].

(** [register_at] *)
Definition register_at (app : App) : App :=
  let app := record init_app app in
  let app := record (register_blueprint "bvp_api" "/api") app in
  let app := record (register_package "bvp.api.common") app in
  let app :=
    if py_eq_str "play" (config_get app "BVP_MODE" (PyStr ""))
    then record (register_package "bvp.api.play") app
    else app in
  if is_True (config_get app "BVP_API" (PyBool true)) then
    let app := record (register_package "bvp.api.v1") app in
    let app := record (register_package "bvp.api.v1_1") app in
    let app := record (register_package "bvp.api.v1_2") app in
    record (register_package "bvp.api.v1_3") app
  else app.

(** What a call of [register_at] adds. *)
Definition added (app : App) : list registration :=
  drop (length (registered app)) (registered (register_at app)).

End Registration.

(** * Properties *)

(** ** The Pandas reporter configuration *)

Section pandas_reporter_facts.
Import PandasReporter.

Lemma run_chain_from final st ts :
  let st' := foldl (chain_step final) st ts in
  fake_data st' =
    fake_data st ∪ list_to_set (omap snd (resolved (previous_df st) ts))
  ∧ final_df_output_method st' =
      from_option Some (final_df_output_method st)
        (last (methods_on final (previous_df st) ts))
  ∧ previous_df st' =
      from_option snd (previous_df st) (last (resolved (previous_df st) ts)).
Proof.
  revert st. induction ts as [|t ts IH]; intros st; simpl.
  - split; [set_solver | done].
  - destruct (IH (chain_step final st t)) as (Hd & Hm & Hp).
    simpl in Hd, Hm, Hp. rewrite Hd, Hm, Hp. clear IH Hd Hm Hp.
    set (out := resolve_output (previous_df st) t).
    split_and!.
    + destruct out as [o|]; simpl; set_solver.
    + destruct (decide (out = Some final)) as [E|E]; simpl.
      * destruct (methods_on final out ts) as [|m ms] eqn:Hms; [done|].
        rewrite last_cons_cons.
        destruct (last (m :: ms)) eqn:Hl; [done|]. by apply last_None in Hl.
      * done.
    + destruct (resolved out ts) as [|p ps] eqn:Hps; [done|].
      rewrite last_cons_cons.
      destruct (last (p :: ps)) eqn:Hl; [done|]. by apply last_None in Hl.
Qed.

Lemma fake_data_generated c : fake_data (run_chain c) = generated c.
Proof.
  unfold run_chain, generated.
  by destruct (run_chain_from (final_df_output c) (initial_state c)
                (transformations c)) as (-> & _ & _).
Qed.

Lemma final_method_last c :
  final_df_output_method (run_chain c) = last_method_on c.
Proof.
  unfold run_chain, last_method_on.
  destruct (run_chain_from (final_df_output c) (initial_state c)
              (transformations c)) as (_ & -> & _).
  simpl. by destruct (last _).
Qed.

Lemma load_spec c :
  load c = Ok c ↔
  final_df_output c ∈ generated c ∧ last_method_on c ≠ Some "resample".
Proof.
  unfold load. rewrite fake_data_generated, final_method_last.
  repeat case_decide; naive_solver.
Qed.

Lemma load_ok_same c c' : load c = Ok c' → c' = c.
Proof. unfold load. repeat case_decide; naive_solver. Qed.

Lemma load_total c : load c = Ok c ∨ ∃ e, load c = Raise e.
Proof. unfold load. repeat case_decide; eauto. Qed.

Lemma previous_df_last_output c : previous_df (run_chain c) = last_output c.
Proof.
  unfold run_chain, last_output.
  by destruct (run_chain_from (final_df_output c) (initial_state c)
                (transformations c)) as (_ & _ & ->).
Qed.

Lemma run_chain_followed_by c t :
  run_chain (followed_by c t) =
  chain_step (final_df_output c) (run_chain c) t.
Proof. unfold run_chain, followed_by. simpl. by rewrite foldl_app. Qed.


(** The model agrees with the verdicts of [test_pandas_reporter_schema]. *)
Example test_pandas_reporter_schema :
  load test_config_1 = Ok test_config_1
  ∧ load test_config_2 = Ok test_config_2
  ∧ (∃ e, load test_config_3 = Raise e)
  ∧ load test_config_4 = Ok test_config_4.
Proof. split_and!; try by vm_compute. eexists. by vm_compute. Qed.

End pandas_reporter_facts.

Section pandas_reporter_claims.
Import PandasReporter.

(** C1 (as amended): loading a configuration succeeds only if the
    dataframe named by ["final_df_output"] is generated by the pipeline,
    as a belief-search result or as the output of a transformation; a
    configuration that never generates it is refused; one that does
    generate it loads provided the last method applied to it is not
    ["resample"]. *)
Theorem load_final_df_output_generated (c : ReporterConfig) :
  (∀ c', load c = Ok c' → final_df_output c ∈ generated c)
  ∧ (final_df_output c ∉ generated c → ∃ e, load c = Raise e)
  ∧ (final_df_output c ∈ generated c →
     last_method_on c ≠ Some "resample" → load c = Ok c).
Proof.
  split_and!.
  - intros c' H. pose proof (load_ok_same _ _ H) as ->.
    by apply load_spec in H as [? _].
  - intros Hn. destruct (load_total c) as [H|H]; [|done].
    by apply load_spec in H as [? _].
  - intros. by apply load_spec.
Qed.

Lemma load_final_df_output_generated_witness :
  load test_config_1 = Ok test_config_1.
Proof.
  apply (load_final_df_output_generated test_config_1).
  - apply (bool_decide_unpack _). by vm_compute.
  - apply (bool_decide_unpack _). by vm_compute.
Defined.

(** C1 as stated fails: the third test configuration generates its
    final dataframe and is refused all the same. *)
Lemma load_generated_yet_refused :
  final_df_output test_config_3 ∈ generated test_config_3
  ∧ load test_config_3 ≠ Ok test_config_3.
Proof.
  split.
  - apply (bool_decide_unpack _). by vm_compute.
  - by vm_compute.
Qed.






(** C3: a configuration in which ["resample"] is the last method applied
    to the final output dataframe is refused; when that resample is the
    last transformation and a further step with another method (such as
    ["sum"]) follows it, the configuration is accepted. *)
Theorem resample_last_refused (c : ReporterConfig) :
  last_method_on c = Some "resample" →
  (∃ e, load c = Raise e)
  ∧ (∀ m a, last_output c = Some (final_df_output c) → m ≠ "resample" →
       load (followed_by c (tr None None m a))
       = Ok (followed_by c (tr None None m a))).
Proof.
  intros Hr. split.
  - destruct (load_total c) as [H|H]; [|done].
    apply load_spec in H as [_ H]. done.
  - intros m a Hlast Hm. unfold load.
    rewrite run_chain_followed_by. simpl.
    rewrite previous_df_last_output, Hlast. simpl.
    rewrite decide_True by set_solver.
    rewrite (decide_True (P := resolve_output _ _ = _)) by done.
    rewrite decide_False by congruence. done.
Qed.

Lemma resample_last_refused_witness :
  (∃ e, load test_config_3 = Raise e) ∧ load test_config_4 = Ok test_config_4.
Proof.
  assert (H : last_method_on test_config_3 = Some "resample") by reflexivity.
  destruct (resample_last_refused test_config_3 H) as [H1 H2].
  split; [exact H1|].
  apply (H2 "sum" []); [reflexivity | by vm_compute].
Defined.

End pandas_reporter_claims.

(** ** The public endpoints of the API *)

Section api_claims.
Import ApiCommon.

Variable verify_password : pyval → string → result exn bool.
Variable get_auth_token : User → string.
Variable py_str : pyval → string.

Abbreviation request_auth_token :=
  (Api.request_auth_token verify_password get_auth_token py_str).

(** C5: the public root endpoint, [GET /api/], answers every request,
    authenticated or not, with the versions list v1, v1_1, v1_2, v1_3; no
    authentication decorator guards it. *)
Theorem get_versions_public (ctx : Context) :
  body (dispatch Api.route_get_versions ctx) !! "versions"
    = Some (PyList [PyStr "v1"; PyStr "v1_1"; PyStr "v1_2"; PyStr "v1_3"])
  ∧ http_status (dispatch Api.route_get_versions ctx) = 200
  ∧ (Api.url_prefix +:+ rule Api.route_get_versions) = "/api/"
  ∧ methods Api.route_get_versions = ["GET"]
  ∧ (auth_token_required ∉ decorators Api.route_get_versions)
  ∧ (∀ accepted,
       usef_roles_accepted accepted ∉ decorators Api.route_get_versions).
Proof.
  split_and!; try reflexivity.
  - intros H. apply list_elem_of_singleton in H. discriminate.
  - intros accepted H. apply list_elem_of_singleton in H. discriminate.
Qed.

Lemma request_auth_token_object ctx d :
  is_json (request ctx) = true →
  json (request ctx) = Some (PyDict d) →
  Api.request_auth_token_try verify_password get_auth_token py_str ctx =
    match d !! "email" with
    | None => Ok (Api.errors "Please provide the 'email' parameter." (Some 400))
    | Some email_ =>
        (found ← Api.find_user verify_password py_str ctx (PyDict d) email_;
         match found with
         | inl early => Ok early
         | inr user =>
             Ok {| body := {[ "auth_token" := PyStr (get_auth_token user);
                              "user_id" := PyInt (Z.of_nat (id user)) ]};
                   status := None |}
         end)
    end.
Proof.
  intros Hj Hd. unfold Api.request_auth_token_try, get_json.
  rewrite Hj, Hd. simpl. by destruct (d !! "email").
Qed.

Lemma find_user_database ctx j e :
  Api.session_user ctx (PyStr e) = None →
  Api.find_user verify_password py_str ctx j (PyStr e) =
    user ← one_or_none (filter_by_email (users ctx) (PyStr e));
    match user with
    | None =>
        Ok (inl (Api.errors ("User with email '" +:+ py_str (PyStr e)
                             +:+ "' does not exist") (Some 404)))
    | Some u =>
        has_pw ← py_contains "password" j;
        if negb has_pw then
          Ok (inl (Api.errors "Please provide the 'password' parameter." None))
        else
          pw ← py_getitem j "password";
          ok ← verify_password pw (password u);
          if negb ok then
            Ok (inl (Api.errors "User password does not match." (Some 401)))
          else Ok (inr u)
    end.
Proof. intros H. unfold Api.find_user. by rewrite H. Qed.

Lemma filter_by_email_nil db e :
  (∀ u, u ∈ db → email u ≠ e) → filter_by_email db (PyStr e) = [].
Proof.
  intros H. unfold filter_by_email. induction db as [|u db IH]; [done|].
  rewrite filter_cons. rewrite decide_False.
  - apply IH. intros u' Hu'. apply H. by right.
  - simpl. intros Hb. apply bool_decide_eq_true in Hb.
    by apply (H u); [left|].
Qed.

Lemma filter_by_email_elem db e u :
  u ∈ filter_by_email db (PyStr e) ↔ u ∈ db ∧ email u = e.
Proof.
  unfold filter_by_email. rewrite list_elem_of_filter. simpl.
  rewrite bool_decide_eq_true. naive_solver.
Qed.

(** C6 (as amended): [POST /api/requestAuthToken].  A JSON request that
    names an existing user with a matching password gets a body with
    ["auth_token"] and ["user_id"].  The answer is HTTP 400 when the
    request is not JSON or its JSON object lacks ["email"], HTTP 404 when
    no user has the given email, and HTTP 401 when the supplied password
    does not verify against the stored one, unless the session is already
    authenticated as the user of that email: then the password is not
    looked at and the token is returned. *)
Theorem request_auth_token_responses (ctx : Context) :
  (is_json (request ctx) = false →
     status (request_auth_token ctx) = Some 400
     ∧ is_error_response (request_auth_token ctx))
  ∧ (∀ d, is_json (request ctx) = true →
       json (request ctx) = Some (PyDict d) →
       d !! "email" = None →
       status (request_auth_token ctx) = Some 400
       ∧ is_error_response (request_auth_token ctx))
  ∧ (∀ d e, is_json (request ctx) = true →
       json (request ctx) = Some (PyDict d) →
       d !! "email" = Some (PyStr e) →
       (∀ u, u ∈ users ctx → email u ≠ e) →
       (∀ cu, current_user ctx = Some cu → email cu ≠ e) →
       status (request_auth_token ctx) = Some 404
       ∧ is_error_response (request_auth_token ctx))
  ∧ (∀ d e u pw, is_json (request ctx) = true →
       json (request ctx) = Some (PyDict d) →
       d !! "email" = Some (PyStr e) →
       d !! "password" = Some pw →
       filter_by_email (users ctx) (PyStr e) = [u] →
       verify_password pw (password u) = Ok false →
       Api.session_user ctx (PyStr e) = None →
       status (request_auth_token ctx) = Some 401
       ∧ is_error_response (request_auth_token ctx))
  ∧ (∀ d e u pw, is_json (request ctx) = true →
       json (request ctx) = Some (PyDict d) →
       d !! "email" = Some (PyStr e) →
       d !! "password" = Some pw →
       filter_by_email (users ctx) (PyStr e) = [u] →
       verify_password pw (password u) = Ok true →
       ∃ u', email u' = e
         ∧ request_auth_token ctx =
             {| body := {[ "auth_token" := PyStr (get_auth_token u');
                           "user_id" := PyInt (Z.of_nat (id u')) ]};
                status := None |})
  ∧ (∀ d e cu, is_json (request ctx) = true →
       json (request ctx) = Some (PyDict d) →
       d !! "email" = Some (PyStr e) →
       current_user ctx = Some cu → email cu = e →
       request_auth_token ctx =
         {| body := {[ "auth_token" := PyStr (get_auth_token cu);
                       "user_id" := PyInt (Z.of_nat (id cu)) ]};
            status := None |}).
Proof.
  split_and!.
  - intros Hj. unfold Api.request_auth_token, Api.request_auth_token_try.
    rewrite Hj. simpl. split; [done|]. by eexists.
  - intros d Hj Hd He. unfold Api.request_auth_token.
    rewrite (request_auth_token_object _ _ Hj Hd), He. simpl.
    split; [done|]. by eexists.
  - intros d e Hj Hd He Hdb Hcu. unfold Api.request_auth_token.
    rewrite (request_auth_token_object _ _ Hj Hd), He.
    rewrite find_user_database.
    + rewrite filter_by_email_nil by done. simpl. split; [done|]. by eexists.
    + unfold Api.session_user. destruct (current_user ctx) as [cu|]; [|done].
      simpl. rewrite bool_decide_eq_false_2; [done|]. by apply Hcu.
  - intros d e u pw Hj Hd He Hpw Hu Hv Hs. unfold Api.request_auth_token.
    rewrite (request_auth_token_object _ _ Hj Hd), He.
    rewrite find_user_database by done. rewrite Hu. simpl.
    rewrite Hpw. rewrite bool_decide_eq_true_2 by eauto. simpl.
    rewrite Hv. simpl. split; [done|]. by eexists.
  - intros d e u pw Hj Hd He Hpw Hu Hv. unfold Api.request_auth_token.
    rewrite (request_auth_token_object _ _ Hj Hd), He.
    destruct (Api.session_user ctx (PyStr e)) as [cu|] eqn:Hs.
    + unfold Api.find_user. rewrite Hs. simpl. exists cu. split; [|done].
      unfold Api.session_user in Hs.
      destruct (current_user ctx) as [cu'|]; [|done]. simpl in Hs.
      case_bool_decide; by simplify_eq.
    + rewrite find_user_database by done. rewrite Hu. simpl.
      rewrite Hpw. rewrite bool_decide_eq_true_2 by eauto. simpl.
      rewrite Hv. simpl. exists u. split; [|done].
      assert (Hin : u ∈ filter_by_email (users ctx) (PyStr e))
        by (rewrite Hu; by left).
      by apply filter_by_email_elem in Hin as [_ ?].
  - intros d e cu Hj Hd He Hcu Hem. unfold Api.request_auth_token.
    rewrite (request_auth_token_object _ _ Hj Hd), He.
    unfold Api.find_user, Api.session_user. rewrite Hcu. simpl.
    by rewrite bool_decide_eq_true_2.
Qed.

End api_claims.

Lemma request_auth_token_responses_witness :
  status (Api.request_auth_token Fixtures.plain_verify Fixtures.token_of
            Fixtures.str_of Fixtures.ctx_wrong_password) = Some 401.
Proof.
  refine (proj1 (proj1 (proj2 (proj2 (proj2
    (request_auth_token_responses Fixtures.plain_verify Fixtures.token_of
       Fixtures.str_of Fixtures.ctx_wrong_password))))
    _ "test_user@seita.nl" Fixtures.test_user (PyStr "wrong")
    eq_refl eq_refl _ _ _ _ _)); by vm_compute.
Defined.

(** C6 as stated fails: a session that is authenticated as the user of
    the given email gets a token although the supplied password does not
    verify. *)
Lemma request_auth_token_session_skips_password :
  Fixtures.plain_verify (PyStr "wrong") (password Fixtures.test_user) = Ok false
  ∧ http_status (Api.request_auth_token Fixtures.plain_verify Fixtures.token_of
                   Fixtures.str_of Fixtures.ctx_session_wrong_password) ≠ 401
  ∧ body (Api.request_auth_token Fixtures.plain_verify Fixtures.token_of
            Fixtures.str_of Fixtures.ctx_session_wrong_password) !! "auth_token"
    = Some (PyStr "token-2").
Proof. split_and!; by vm_compute. Qed.

(** C7, at the failing input: a request that names an existing user and
    carries no password is answered with an ["errors"] body to which no
    status code is attached, so it is served as HTTP 200. *)
Theorem request_auth_token_missing_password_no_status
    (verify_password : pyval → string → result exn bool)
    (get_auth_token : User → string) (py_str : pyval → string) :
  let r := Api.request_auth_token verify_password get_auth_token py_str
             Fixtures.ctx_no_password in
  is_error_response r ∧ status r = None ∧ http_status r = 200.
Proof.
  split_and!; [|by vm_compute..].
  exists [PyStr "Please provide the 'password' parameter."]. by vm_compute.
Qed.

(** ** Roles of the v1.1 endpoints *)

Section api_v1_1_claims.
Import ApiCommon ApiV1_1.

Variable get_prognosis_response : View.
Variable routes_get_meter_data : View.
Variable routes_post_meter_data : View.

Lemma has_accepted_role_true accepted u :
  has_accepted_role accepted u = true ↔ ∃ r, r ∈ roles u ∧ r ∈ accepted.
Proof.
  unfold has_accepted_role. rewrite existsb_exists. split.
  - intros (r & Hr & Hb). exists r. rewrite <- list_elem_of_In in Hr.
    by apply bool_decide_eq_true in Hb.
  - intros (r & Hr & Ha). exists r. rewrite <- list_elem_of_In.
    by rewrite bool_decide_eq_true.
Qed.

Lemma has_accepted_role_false accepted u :
  has_accepted_role accepted u = false ↔ ∀ r, r ∈ roles u → r ∉ accepted.
Proof.
  rewrite <- not_true_iff_false, has_accepted_role_true. naive_solver.
Qed.

(** The decorator stack shared by the protected endpoints: the response
    type on the outside, then the token check, then the role check. *)
Lemma protected_dispatch t accepted ds f ctx :
  (∀ g, foldr decorate g ds = g) →
  foldr decorate f
    (as_response_type t :: auth_token_required
       :: usef_roles_accepted accepted :: ds) ctx =
  let r :=
    match current_user ctx with
    | None => unauthorized
    | Some u =>
        if has_accepted_role accepted u then f ctx
        else invalid_sender accepted
    end in
  {| body := <[ "type" := PyStr t ]> (body r); status := status r |}.
Proof.
  intros Hds. simpl. rewrite Hds. by destruct (current_user ctx).
Qed.

(** C8: in the v1.1 service listing [postMeterData] is open to the MDC
    role only, and [getMeterData], [getPrognosis] and [postPrognosis] to
    the six roles Aggregator, Supplier, MDC, DSO, Prosumer and ESCo.  The
    [postMeterData] endpoint runs its implementation exactly for
    authenticated senders holding the MDC role; on each protected
    endpoint an authenticated sender holding none of the accepted roles
    receives [INVALID_SENDER] with HTTP status 403. *)
Theorem v1_1_roles_accepted :
  check_access service_listing "postMeterData" = Some ["MDC"]
  ∧ check_access service_listing "getMeterData" = Some six_roles
  ∧ check_access service_listing "getPrognosis" = Some six_roles
  ∧ check_access service_listing "postPrognosis" = Some six_roles
  ∧ (∀ ctx u, current_user ctx = Some u → "MDC" ∈ roles u →
       dispatch (post_meter_data routes_post_meter_data) ctx =
         {| body := <[ "type" := PyStr "PostMeterDataResponse" ]>
                      (body (routes_post_meter_data ctx));
            status := status (routes_post_meter_data ctx) |})
  ∧ (∀ ctx, current_user ctx = None →
       http_status (dispatch (post_meter_data routes_post_meter_data) ctx)
       = 401)
  ∧ (∀ ctx u, current_user ctx = Some u → "MDC" ∉ roles u →
       let r := dispatch (post_meter_data routes_post_meter_data) ctx in
       http_status r = 403 ∧ body r !! "status" = Some (PyStr "INVALID_SENDER"))
  ∧ (∀ ctx u, current_user ctx = Some u →
       (∀ r, r ∈ roles u → r ∉ six_roles) →
       let r := dispatch (get_meter_data routes_get_meter_data) ctx in
       http_status r = 403 ∧ body r !! "status" = Some (PyStr "INVALID_SENDER"))
  ∧ (∀ ctx u, current_user ctx = Some u →
       (∀ r, r ∈ roles u → r ∉ six_roles) →
       let r := dispatch (get_prognosis get_prognosis_response) ctx in
       http_status r = 403 ∧ body r !! "status" = Some (PyStr "INVALID_SENDER"))
  ∧ (∀ ctx u role, current_user ctx = Some u →
       role ∈ roles u → role ∈ six_roles →
       dispatch (get_meter_data routes_get_meter_data) ctx =
         {| body := <[ "type" := PyStr "GetMeterDataResponse" ]>
                      (body (routes_get_meter_data ctx));
            status := status (routes_get_meter_data ctx) |}
       ∧ dispatch (get_prognosis get_prognosis_response) ctx =
         {| body := <[ "type" := PyStr "GetPrognosisResponse" ]>
                      (body (get_prognosis_response ctx));
            status := status (get_prognosis_response ctx) |}).
Proof.
  split_and!; try reflexivity.
  - intros ctx u Hu Hr. unfold dispatch, post_meter_data. simpl decorators.
    rewrite protected_dispatch by done. simpl. rewrite Hu.
    rewrite (proj2 (has_accepted_role_true _ _)); [done|].
    exists "MDC". split; [done|]. by left.
  - intros ctx Hu. unfold dispatch, post_meter_data. simpl decorators.
    rewrite protected_dispatch by done. simpl. by rewrite Hu.
  - intros ctx u Hu Hr. unfold dispatch, post_meter_data. simpl decorators.
    rewrite protected_dispatch by done. simpl. rewrite Hu.
    rewrite (proj2 (has_accepted_role_false _ _)); [done|].
    intros r Hin Hacc. apply list_elem_of_singleton in Hacc. by subst.
  - intros ctx u Hu Hr. unfold dispatch, get_meter_data. simpl decorators.
    rewrite protected_dispatch by done. simpl. rewrite Hu.
    by rewrite (proj2 (has_accepted_role_false _ _)).
  - intros ctx u Hu Hr. unfold dispatch, get_prognosis. simpl decorators.
    rewrite protected_dispatch by done. simpl. rewrite Hu.
    by rewrite (proj2 (has_accepted_role_false _ _)).
  - intros ctx u role Hu Hr Hs.
    unfold dispatch, get_meter_data, get_prognosis. simpl decorators.
    rewrite !protected_dispatch by done. simpl. rewrite Hu.
    split; (rewrite (proj2 (has_accepted_role_true _ _));
            [done | exists role; split; [done | exact Hs]]).
Qed.

End api_v1_1_claims.

Lemma v1_1_roles_accepted_witness :
  http_status
    (ApiCommon.dispatch
       (ApiV1_1.get_meter_data Fixtures.processed) Fixtures.ctx_test_user) = 403.
Proof.
  refine (proj1 (proj1 (proj2 (proj2 (proj2 (proj2 (proj2 (proj2 (proj2
    (v1_1_roles_accepted Fixtures.processed Fixtures.processed
       Fixtures.processed))))))))
    Fixtures.ctx_test_user Fixtures.test_user eq_refl _)).
  intros r Hr. by apply elem_of_nil in Hr.
Defined.

(** ** The asset models *)

Section inflection_facts.
Import PyString Inflection.

Lemma replace_char_head old new c s :
  c ≠ old →
  replace (String old EmptyString) new (String c s) =
  String c (replace (String old EmptyString) new s).
Proof.
  intros Hc. unfold replace. simpl.
  destruct (Ascii.ascii_dec old c) as [->|_]; [done|]. done.
Qed.

Lemma replace_char_nonempty old new s :
  new ≠ "" → replace (String old EmptyString) new s = "" → s = "".
Proof.
  intros Hn. destruct s as [|c s]; [done|]. unfold replace. simpl.
  destruct (Ascii.ascii_dec old c) as [->|_]; [|done].
  destruct s; simpl; destruct new; done.
Qed.

Lemma strip_id_empty s : strip_id s = "" → s = "" ∨ s = "_id".
Proof.
  destruct s as [|c s]; [by left|]. simpl.
  case_bool_decide; [by right|]. case_bool_decide; done.
Qed.

Lemma humanize_empty s : humanize s = "" → s = "" ∨ s = "_id".
Proof.
  unfold humanize. intros H. apply strip_id_empty.
  apply (replace_char_nonempty "_" " "); [done|].
  destruct (replace "_" " " (strip_id s)) as [|c r]; [done|].
  simpl in H. by destruct (is_word (to_lower c)).
Qed.

Lemma title_from_empty cased s : title_from cased s = "" → s = "".
Proof. destruct s as [|c s]; [done|]. simpl. by repeat case_match. Qed.

Lemma titleize_empty s :
  titleize s = "" → underscore s = "" ∨ underscore s = "_id".
Proof.
  unfold titleize, title. intros H. apply humanize_empty.
  apply (title_from_empty false).
  by destruct (title_from false (humanize (underscore s))).
Qed.

Lemma replace_char_hit old new s :
  replace (String old EmptyString) new (String old s) =
  new +:+ replace (String old EmptyString) new s.
Proof.
  unfold replace. simpl.
  destruct (Ascii.ascii_dec old old) as [_|Hne]; [|done]. by destruct s.
Qed.

(** What [underscore] does to one character once the underscores are in
    place: a hyphen becomes an underscore, a capital a small letter. *)
Lemma lower_replace_hyphen s :
  lower (replace "-" "_" s) =
  map_chars (λ c, to_lower (if bool_decide (c = "-"%char) then "_"%char else c)) s.
Proof.
  induction s as [|c s IH]; [done|]. cbn [map_chars]. rewrite <- IH.
  destruct (decide (c = "-"%char)) as [->|Hc].
  - by rewrite replace_char_hit.
  - rewrite replace_char_head by done. simpl.
    by rewrite bool_decide_eq_false_2.
Qed.

Lemma map_chars_length f s : String.length (map_chars f s) = String.length s.
Proof. induction s as [|c s IH]; simpl; [done|]. by rewrite IH. Qed.

Lemma split_acronyms_length prev s :
  (String.length s ≤ String.length (split_acronyms prev s))%nat
  ∧ ((String.length (split_acronyms prev s) ≤ String.length s)%nat →
     split_acronyms prev s = s).
Proof.
  revert prev. induction s as [|c s IH]; intros prev; [done|].
  cbn [split_acronyms]. destruct (IH (Some c)) as [Hle Heq].
  destruct (_ && _ && _); cbn [String.length]; (split; [lia|]); intros Hl.
  - lia.
  - rewrite Heq; [done|lia].
Qed.

Lemma split_camel_length prev s :
  (String.length s ≤ String.length (split_camel prev s))%nat
  ∧ ((String.length (split_camel prev s) ≤ String.length s)%nat →
     split_camel prev s = s).
Proof.
  revert prev. induction s as [|c s IH]; intros prev; [done|].
  cbn [split_camel]. destruct (IH (Some c)) as [Hle Heq].
  destruct (_ && _); cbn [String.length]; (split; [lia|]); intros Hl.
  - lia.
  - rewrite Heq; [done|lia].
Qed.

Lemma underscore_length w :
  (String.length w ≤ String.length (underscore w))%nat
  ∧ ((String.length (underscore w) ≤ String.length w)%nat →
     underscore w = lower (replace "-" "_" w)).
Proof.
  unfold underscore. rewrite !lower_replace_hyphen, !map_chars_length.
  destruct (split_acronyms_length None w) as [Ha Ha'].
  destruct (split_camel_length None (split_acronyms None w)) as [Hc Hc'].
  split; [lia|]. intros Hl.
  rewrite Hc' by lia. by rewrite Ha' by lia.
Qed.

Lemma underscore_char_cases c :
  let g := to_lower (if bool_decide (c = "-"%char) then "_"%char else c) in
  (g = "_"%char → c = "_"%char ∨ c = "-"%char)
  ∧ (g = "i"%char → c = "i"%char ∨ c = "I"%char)
  ∧ (g = "d"%char → c = "d"%char ∨ c = "D"%char).
Proof.
  destruct c as [[] [] [] [] [] [] [] []]; vm_compute;
    (split_and!; intros H; first [discriminate H | by left | by right]).
Qed.

Lemma underscore_empty w : underscore w = "" → w = "".
Proof.
  intros H. destruct (underscore_length w) as [Hle _]. rewrite H in Hle.
  destruct w; [done|]. simpl in Hle. lia.
Qed.

Lemma underscore_id w : underscore w = "_id" ↔ w ∈ id_names.
Proof.
  split.
  - intros H. destruct (underscore_length w) as [Hle Heq].
    rewrite H in Hle, Heq. simpl in Hle, Heq.
    destruct w as [|c0 [|c1 [|c2 [|c3 w]]]]; simpl in Hle; [done| | | |lia].
    + unfold underscore in H. simpl in H.
      rewrite lower_replace_hyphen in H. done.
    + unfold underscore in H. cbn [split_acronyms PyString.head holds] in H.
      rewrite !andb_false_r in H. cbn [split_camel holds] in H.
      rewrite lower_replace_hyphen in H. simpl in H.
      destruct (_ && _) in H; simpl in H; [|done].
      by inversion H.
    + assert (H' : "_id" = lower (replace "-" "_"
                                    (String c0 (String c1 (String c2 "")))))
        by (apply Heq; simpl; lia).
      rewrite lower_replace_hyphen in H'. simpl in H'.
      assert (to_lower (if bool_decide (c0 = "-"%char) then "_"%char else c0)
              = "_"%char
              ∧ to_lower (if bool_decide (c1 = "-"%char) then "_"%char else c1)
                = "i"%char
              ∧ to_lower (if bool_decide (c2 = "-"%char) then "_"%char else c2)
                = "d"%char) as (H0 & H1 & H2) by (by inversion H').
      apply (proj1 (underscore_char_cases c0)) in H0.
      apply (proj1 (proj2 (underscore_char_cases c1))) in H1.
      apply (proj2 (proj2 (underscore_char_cases c2))) in H2.
      unfold id_names.
      destruct H0 as [-> | ->], H1 as [-> | ->], H2 as [-> | ->];
        first [by vm_compute in H | set_solver].
  - unfold id_names. intros Hw. set_unfold in Hw.
    destruct Hw as [->|[->|[->|[->|[->|[->|[]]]]]]]; reflexivity.
Qed.

Lemma titleize_empty_iff w :
  titleize w = "" ↔ w = "" ∨ w ∈ id_names.
Proof.
  split.
  - intros H. apply titleize_empty in H as [H|H].
    + left. by apply underscore_empty.
    + right. by apply underscore_id.
  - intros [->|Hw]; [reflexivity|].
    unfold id_names in Hw. set_unfold in Hw.
    destruct Hw as [->|[->|[->|[->|[->|[->|[]]]]]]]; reflexivity.
Qed.

(** The examples of the documentation of [inflection]. *)
Example inflection_examples :
  underscore "DeviceType" = "device_type"
  ∧ underscore "IOError" = "io_error"
  ∧ humanize "employee_salary" = "Employee salary"
  ∧ humanize "author_id" = "Author"
  ∧ titleize "TheManWithoutAPast" = "The Man Without A Past"
  ∧ titleize "x-men: the last stand" = "X Men: The Last Stand"
  ∧ titleize "raiders_of_the_lost_ark" = "Raiders Of The Lost Ark"
  ∧ titleize "ev-charger 2b" = "Ev Charger 2B"
  ∧ titleize "don't stop" = "Don't Stop".
Proof. split_and!; reflexivity. Qed.

Example asset_type_example :
  Assets.AssetType_init
    (Fixtures.asset_type_kwargs (Some "Charging Station") None)
  = Ok {| Assets.type_name := "charging_station";
          Assets.type_display_name := Some "Charging station";
          Assets.is_consumer := false; Assets.is_producer := true |}.
Proof. reflexivity. Qed.

End inflection_facts.

Section asset_claims.
Import PyString Inflection Assets.

(** C9 (as amended): a newly constructed [Asset] has [" (MW)"] taken out
    of its name, and when no display name was supplied (empty string or
    [None]) its display name is the titleized name.  A fresh asset carries
    an empty display name exactly when none was supplied and its name is
    empty or one of ["_id"], ["-id"], ["_Id"], ["-Id"], ["_ID"], ["-ID"],
    the names that titleize to the empty string; its display name is never
    [None].  A newly constructed [AssetType] has its name in lower case
    with spaces turned into underscores, and when the [display_name]
    keyword was not given its display name is the humanized name. *)
Theorem constructors_set_names :
  (∀ kw n, kw_name kw = Some n →
     ∃ a, Asset_init kw = Ok a
       ∧ name a = replace " (MW)" "" n
       ∧ (kw_display_name kw = None ∨ kw_display_name kw = Some "" →
          display_name a = Some (titleize (name a)))
       ∧ (∀ d, kw_display_name kw = Some d → d ≠ "" →
          display_name a = Some d)
       ∧ display_name a ≠ None
       ∧ (display_name a = Some "" ↔
          (kw_display_name kw = None ∨ kw_display_name kw = Some "")
          ∧ (name a = "" ∨ name a ∈ id_names)))
  ∧ (∀ kw n, at_name kw = Some n →
       ∃ t, AssetType_init kw = Ok t
         ∧ type_name t = lower (replace " " "_" n)
         ∧ (at_display_name kw = None →
            type_display_name t = Some (humanize (type_name t)))
         ∧ (∀ given, at_display_name kw = Some given →
            type_display_name t = given)).
Proof.
  split.
  - intros kw n Hn. unfold Asset_init. rewrite Hn.
    eexists. split; [reflexivity|]. simpl.
    split_and!; [done|..].
    + intros [->| ->]; done.
    + intros d -> Hd. by rewrite bool_decide_eq_false_2.
    + destruct (kw_display_name kw) as [d|]; [case_bool_decide|]; done.
    + rewrite <- titleize_empty_iff.
      destruct (kw_display_name kw) as [d|]; [case_bool_decide as Hd|].
      * subst d. split; [intros [= ->]; eauto|]. by intros [_ ->].
      * split; [by intros [= ->]|]. intros [[?|[= ?]] _]; done.
      * split; [intros [= ->]; eauto|]. by intros [_ ->].
  - intros kw n Hn. unfold AssetType_init. rewrite Hn.
    eexists. split; [reflexivity|]. simpl.
    split_and!; [done|..].
    + by intros ->.
    + by intros given ->.
Qed.

End asset_claims.

Lemma constructors_set_names_witness :
  ∃ a, Assets.Asset_init
         (Fixtures.asset_kwargs (Some "wind-onshore 1 (MW)") None) = Ok a
    ∧ Assets.name a = "wind-onshore 1"
    ∧ Assets.display_name a = Some "Wind Onshore 1".
Proof.
  destruct (proj1 constructors_set_names
              (Fixtures.asset_kwargs (Some "wind-onshore 1 (MW)") None)
              "wind-onshore 1 (MW)" eq_refl)
    as (a & Ha & Hname & Hdisplay & _).
  exists a. split; [exact Ha|].
  assert (Hn : Assets.name a = "wind-onshore 1").
  { rewrite Hname. by vm_compute. }
  split; [exact Hn|].
  rewrite (Hdisplay (or_introl eq_refl)), Hn. by vm_compute.
Defined.

(** C9 as stated fails: an asset constructed with an empty name, or with
    the name ["_id"], and without a display name, carries an empty display
    name. *)
Lemma asset_with_empty_display_name :
  (∃ a, Assets.Asset_init (Fixtures.asset_kwargs (Some "") None) = Ok a
     ∧ Assets.display_name a = Some "")
  ∧ (∃ a, Assets.Asset_init (Fixtures.asset_kwargs (Some "_id") None) = Ok a
       ∧ Assets.display_name a = Some "").
Proof. split; eexists; split; reflexivity. Qed.

Example capacity_factor_examples :
  let asset c :=
    {| Assets.name := "wind-onshore 1"; Assets.display_name := None;
       Assets.asset_type_name := "wind"; Assets.unit := "MW";
       Assets.capacity_in_mw := c; Assets.latitude := 33;
       Assets.longitude := 126 |} in
  Assets.capacity_factor_in_percent_for (λ x, x) (asset 4%float)
    (Assets.Float 3) = Ok (Assets.Float 75)
  ∧ Assets.capacity_factor_in_percent_for (λ x, x) (asset 4%float)
      (Assets.Int 3) = Ok (Assets.Float 75)
  ∧ Assets.capacity_factor_in_percent_for (λ x, x) (asset 2%float)
      (Assets.Float 3) = Ok (Assets.Int 100)
  ∧ Assets.capacity_factor_in_percent_for (λ x, x) (asset (-0)%float)
      (Assets.Float 3) = Ok (Assets.Int 0).
Proof. split_and!; by vm_compute. Qed.

(** C10 (as amended): [capacity_factor_in_percent_for] never divides by
    zero: it returns 0 whenever the capacity is zero.  For a non-zero
    capacity and a load that is a float, or an [int] within the range of
    floats, it returns the minimum of [round((load / capacity) * 100, 2)]
    and 100, that is 100 when the rounded value is greater than 100 and
    the rounded value itself when it is not; an [int] load beyond the
    range of floats makes the division raise.  A result never exceeds
    100. *)
Theorem capacity_factor_capped (round2 : float → float)
    (a : Assets.Asset) (load_in_mw : Assets.number) :
  (PrimFloat.eqb (Assets.capacity_in_mw a) 0 = true →
     Assets.capacity_factor_in_percent_for round2 a load_in_mw
     = Ok (Assets.Int 0))
  ∧ (PrimFloat.eqb (Assets.capacity_in_mw a) 0 = false →
     (∀ x, Assets.as_float load_in_mw = Ok x →
        let rounded := round2 (x / Assets.capacity_in_mw a * 100)%float in
        (PrimFloat.ltb 100 rounded = true →
           Assets.capacity_factor_in_percent_for round2 a load_in_mw
           = Ok (Assets.Int 100))
        ∧ (PrimFloat.ltb 100 rounded = false →
             Assets.capacity_factor_in_percent_for round2 a load_in_mw
             = Ok (Assets.Float rounded)))
     ∧ (∀ e, Assets.as_float load_in_mw = Raise e →
          Assets.capacity_factor_in_percent_for round2 a load_in_mw
          = Raise e))
  ∧ (∀ x, load_in_mw = Assets.Float x →
       ∃ n, Assets.capacity_factor_in_percent_for round2 a load_in_mw = Ok n)
  ∧ (∀ z, load_in_mw = Assets.Int z →
       (∃ n, Assets.capacity_factor_in_percent_for round2 a load_in_mw = Ok n)
       ↔ PrimFloat.eqb (Assets.capacity_in_mw a) 0 = true
         ∨ PrimFloat.is_infinity
             (SF2Prim (binary_normalize prec emax z 0 false)) = false)
  ∧ (∀ n, Assets.capacity_factor_in_percent_for round2 a load_in_mw = Ok n →
       Assets.exceeds_100 n = false).
Proof.
  unfold Assets.capacity_factor_in_percent_for, Assets.truediv.
  destruct (PrimFloat.eqb (Assets.capacity_in_mw a) 0) eqn:Hc.
  - split_and!; try done.
    + intros x _. eauto.
    + intros z _. split; eauto.
    + by intros n [= <-].
  - split; [done|]. split; [intros _; split|split_and!].
    + intros x Hx. rewrite Hx. simpl.
      unfold Assets.min_100. by split; intros ->.
    + intros e He. by rewrite He.
    + intros x ->. simpl. eauto.
    + intros z ->. simpl. unfold Assets.float_of_int.
      destruct (PrimFloat.is_infinity _); simpl; split.
      * by intros [n ?].
      * by intros [?|?].
      * by right.
      * eauto.
    + intros n. destruct (Assets.as_float load_in_mw) as [x|e]; [|done].
      simpl. intros [= <-]. unfold Assets.min_100.
      destruct (PrimFloat.ltb 100 _) eqn:Hlt; [reflexivity | exact Hlt].
Qed.

Lemma capacity_factor_capped_witness :
  Assets.capacity_factor_in_percent_for (λ x, x)
    {| Assets.name := "wind-onshore 1"; Assets.display_name := None;
       Assets.asset_type_name := "wind"; Assets.unit := "MW";
       Assets.capacity_in_mw := 2; Assets.latitude := 33;
       Assets.longitude := 126 |} (Assets.Int 3)
  = Ok (Assets.Int 100).
Proof.
  refine (proj1 (proj1 (proj1 (proj2 (capacity_factor_capped (λ x, x) _
            (Assets.Int 3))) _) 3%float _) _); by vm_compute.
Defined.

(** C10 as stated fails: for a capacity of 2 MW and the [int] load
    [2 ** 1024] the division raises. *)
Lemma capacity_factor_overflow :
  Assets.capacity_factor_in_percent_for (λ x, x)
    {| Assets.name := "wind-onshore 1"; Assets.display_name := None;
       Assets.asset_type_name := "wind"; Assets.unit := "MW";
       Assets.capacity_in_mw := 2; Assets.latitude := 33;
       Assets.longitude := 126 |} (Assets.Int (2 ^ 1024))
  = Raise (exception "int too large to convert to float").
Proof. by vm_compute. Qed.

(** ** More on [request_auth_token] *)

Section request_auth_token_facts.
Import ApiCommon.

Variable verify_password : pyval → string → result exn bool.
Variable get_auth_token : User → string.
Variable py_str : pyval → string.

Abbreviation auth := (Api.request_auth_token verify_password get_auth_token py_str).

Lemma one_or_none_some rows u : one_or_none rows = Ok (Some u) → rows = [u].
Proof. destruct rows as [|u' [|u'' rows]]; simpl; congruence. Qed.

Lemma one_or_none_none rows : one_or_none rows = Ok None → rows = [].
Proof. destruct rows as [|u' [|u'' rows]]; simpl; congruence. Qed.

Lemma py_eq_str_true s v : py_eq_str s v = true → v = PyStr s.
Proof.
  destruct v; simpl; try discriminate.
  intros H. apply bool_decide_eq_true in H. by subst.
Qed.

Lemma session_user_some ctx e_ u :
  Api.session_user ctx e_ = Some u →
  current_user ctx = Some u ∧ e_ = PyStr (email u).
Proof.
  unfold Api.session_user. destruct (current_user ctx) as [cu|]; [|done].
  destruct (py_eq_str (email cu) e_) eqn:He; [|done].
  intros [= ->]. split; [done|]. by apply py_eq_str_true.
Qed.

Lemma filter_by_email_singleton db e_ u :
  filter_by_email db e_ = [u] → u ∈ db ∧ e_ = PyStr (email u).
Proof.
  intros H. assert (Hin : u ∈ filter_by_email db e_) by (rewrite H; by left).
  unfold filter_by_email in Hin. apply list_elem_of_filter in Hin as [He ?].
  split; [done|]. by apply py_eq_str_true.
Qed.

Lemma find_user_cases ctx j e_ :
  ApiOutcomes.find_user_outcome verify_password py_str ctx j e_
    (Api.find_user verify_password py_str ctx j e_).
Proof.
  unfold Api.find_user.
  destruct (Api.session_user ctx e_) as [cu|] eqn:Hs.
  { apply session_user_some in Hs as [? ?]. by constructor. }
  destruct (one_or_none (filter_by_email (users ctx) e_)) as [[u|]|e] eqn:Ho;
    simpl; [| |by constructor].
  - apply one_or_none_some in Ho.
    destruct (py_contains "password" j) as [[]|e] eqn:Hc; simpl;
      [| by eapply ApiOutcomes.missing_password | by constructor].
    destruct (py_getitem j "password") as [pw|e] eqn:Hg; simpl;
      [|by constructor].
    destruct (verify_password pw (password u)) as [[]|e] eqn:Hv; simpl;
      [by eapply ApiOutcomes.found_in_database
      | by eapply ApiOutcomes.wrong_password
      | by constructor].
  - apply one_or_none_none in Ho. by constructor.
Qed.

Lemma py_getitem_ok j k v :
  py_getitem j k = Ok v → ∃ d, j = PyDict d ∧ d !! k = Some v.
Proof.
  destruct j; simpl; try discriminate.
  destruct (d !! k) eqn:Hd; [|discriminate]. intros [= ->]. eauto.
Qed.

Lemma py_contains_dict d k b :
  py_contains k (PyDict d) = Ok b → (b = true ↔ is_Some (d !! k)).
Proof. simpl. intros [= <-]. apply bool_decide_eq_true. Qed.

(** How the whole of [request_auth_token] can end. *)
Lemma auth_cases ctx :
  (∃ u d, is_json (request ctx) = true
     ∧ json (request ctx) = Some (PyDict d)
     ∧ d !! "email" = Some (PyStr (email u))
     ∧ auth ctx = ApiOutcomes.token_response get_auth_token u
     ∧ (current_user ctx = Some u
        ∨ (filter_by_email (users ctx) (PyStr (email u)) = [u]
           ∧ ∃ pw, d !! "password" = Some pw
               ∧ verify_password pw (password u) = Ok true)))
  ∨ (∃ msg code, auth ctx = Api.errors msg (Some code)
       ∧ code ∈ [400; 401; 404; 500])
  ∨ (∃ d u, is_json (request ctx) = true
       ∧ json (request ctx) = Some (PyDict d)
       ∧ d !! "email" = Some (PyStr (email u))
       ∧ d !! "password" = None
       ∧ Api.session_user ctx (PyStr (email u)) = None
       ∧ filter_by_email (users ctx) (PyStr (email u)) = [u]
       ∧ auth ctx = Api.errors "Please provide the 'password' parameter." None).
Proof.
  unfold Api.request_auth_token, Api.request_auth_token_try.
  destruct (is_json (request ctx)) eqn:Hj; simpl;
    [|right; left; do 2 eexists; split; [done|set_solver]].
  unfold get_json. destruct (json (request ctx)) as [j|] eqn:Hjson; simpl;
    [|right; left; do 2 eexists; split; [done|set_solver]].
  destruct (py_contains "email" j) as [[]|e] eqn:Hc; simpl;
    [| right; left; do 2 eexists; split; [done|set_solver]
     | right; left; do 2 eexists; split; [done|set_solver]].
  destruct (py_getitem j "email") as [e_|e] eqn:Hg; simpl;
    [|right; left; do 2 eexists; split; [done|set_solver]].
  apply py_getitem_ok in Hg as (d & -> & Hd).
  pose proof (find_user_cases ctx (PyDict d) e_) as Hf.
  destruct (Api.find_user verify_password py_str ctx (PyDict d) e_)
    as [[r|u]|e] eqn:Hfind; simpl;
    inversion Hf as [u' Hcu He | u' pw Hs Hfl Hc' Hg' Hv | Hs Hfl
                    | u' Hs Hfl Hc' | u' pw Hs Hfl Hg' Hv | e' Hs]; subst;
    try (right; left; do 2 eexists; split; [done|set_solver]).
  - right; right.
    pose proof (filter_by_email_singleton _ _ _ Hfl) as [_ He]. subst e_.
    exists d, u'. apply py_contains_dict in Hc'.
    split_and!; try done.
    destruct (d !! "password") eqn:Hp; [|done].
    assert (false = true) by (apply Hc'; eauto). done.
  - left. exists u, d. split_and!; try done. by left.
  - left.
    pose proof (filter_by_email_singleton _ _ _ Hfl) as [_ He]. subst e_.
    exists u, d. split_and!; try done. right. split; [done|].
    apply py_getitem_ok in Hg' as (d' & [= <-] & ?). by exists pw.
Qed.

Lemma errors_no_token msg code :
  body (Api.errors msg code) !! "auth_token" = None.
Proof. done. Qed.

(** X1: a token is issued only for a user whose email is the one
    requested, and only when the session is authenticated as that user or
    the password sent with the request verifies against the stored one. *)
Theorem token_only_for_verified_user ctx t :
  body (Api.request_auth_token verify_password get_auth_token py_str ctx)
    !! "auth_token" = Some t →
  ∃ u d, json (request ctx) = Some (PyDict d)
    ∧ d !! "email" = Some (PyStr (email u))
    ∧ t = PyStr (get_auth_token u)
    ∧ body (Api.request_auth_token verify_password get_auth_token py_str ctx)
        !! "user_id" = Some (PyInt (Z.of_nat (id u)))
    ∧ (current_user ctx = Some u
       ∨ (u ∈ users ctx
          ∧ ∃ pw, d !! "password" = Some pw
              ∧ verify_password pw (password u) = Ok true)).
Proof.
  intros Ht.
  destruct (auth_cases ctx) as
    [(u & d & _ & Hjson & He & Hr & Hwho)
    |[(msg & code & Hr & _)|(d & u & _ & _ & _ & _ & _ & _ & Hr)]];
    rewrite Hr in Ht; [|by rewrite errors_no_token in Ht..].
  exists u, d. rewrite Hr. split_and!; try done.
  - simpl in Ht. rewrite lookup_insert_eq in Ht. congruence.
  - destruct Hwho as [?|(Hf & pw & ? & ?)]; [by left|right].
    apply filter_by_email_singleton in Hf as [? _]. eauto.
Qed.

Lemma missing_password_response ctx d u :
  is_json (request ctx) = true →
  json (request ctx) = Some (PyDict d) →
  d !! "email" = Some (PyStr (email u)) →
  d !! "password" = None →
  Api.session_user ctx (PyStr (email u)) = None →
  filter_by_email (users ctx) (PyStr (email u)) = [u] →
  auth ctx = Api.errors "Please provide the 'password' parameter." None.
Proof.
  intros Hj Hd He Hp Hs Hf. unfold Api.request_auth_token.
  rewrite (request_auth_token_object _ _ _ _ _ Hj Hd), He.
  rewrite find_user_database by done. rewrite Hf. simpl. rewrite Hp.
  by rewrite bool_decide_eq_false_2 by (by intros [? ?]).
Qed.

(** X2: an ["errors"] body comes with status 400, 401, 404 or 500, except
    in one case: it has no status exactly when the request is a JSON
    object that names a user of the table, carries no ["password"], and
    the session is not authenticated as that user. *)
Theorem errors_without_status ctx :
  is_error_response (auth ctx) →
  (status (auth ctx) = None ↔
     ∃ d u, is_json (request ctx) = true
       ∧ json (request ctx) = Some (PyDict d)
       ∧ d !! "email" = Some (PyStr (email u))
       ∧ d !! "password" = None
       ∧ Api.session_user ctx (PyStr (email u)) = None
       ∧ filter_by_email (users ctx) (PyStr (email u)) = [u])
  ∧ (status (auth ctx) = None
     ∨ ∃ code, status (auth ctx) = Some code ∧ code ∈ [400; 401; 404; 500]).
Proof.
  intros [l Hl].
  destruct (auth_cases ctx) as
    [(u & d & _ & _ & _ & Hr & _)
    |[(msg & code & Hr & Hcode)
     |(d & u & Hj & Hjson & He & Hp & Hs & Hf & Hr)]].
  - rewrite Hr in Hl. done.
  - split; [|right; rewrite Hr; eauto]. split.
    + rewrite Hr. done.
    + intros (d & u & Hj & Hjson & He & Hp & Hs & Hf).
      rewrite (missing_password_response ctx d u) in Hr by done. done.
  - split; [|left; by rewrite Hr]. split; [|by rewrite Hr]. eauto 10.
Qed.

(** X3: a JSON body that is not an object never yields a token: the
    answer is 400 when ["email"] is not found in it (a list without that
    element, a string without that substring), and 500 in every other
    case (found but not subscriptable by a string, or not iterable). *)
Theorem body_not_an_object ctx j :
  is_json (request ctx) = true →
  json (request ctx) = Some j →
  (∀ d, j ≠ PyDict d) →
  is_error_response (auth ctx)
  ∧ status (auth ctx)
    = Some (match py_contains "email" j with Ok false => 400 | _ => 500 end).
Proof.
  intros Hj Hjson Hd. unfold Api.request_auth_token, Api.request_auth_token_try.
  rewrite Hj. unfold get_json. rewrite Hjson. simpl.
  destruct j as [| | | | |l|d]; simpl; try (split; [by eexists|done]).
  - destruct (bool_decide _); simpl; (split; [by eexists|done]).
  - destruct (existsb _ l); simpl; (split; [by eexists|done]).
  - by destruct (Hd d).
Qed.

(** X4: when the email of the request occurs more than once in the users
    table and the session is not authenticated as that user, the answer is
    500, whatever password is sent. *)
Theorem duplicate_email_is_500 ctx d e :
  is_json (request ctx) = true →
  json (request ctx) = Some (PyDict d) →
  d !! "email" = Some (PyStr e) →
  Api.session_user ctx (PyStr e) = None →
  (2 ≤ length (filter_by_email (users ctx) (PyStr e)))%nat →
  auth ctx = Api.errors "Multiple rows were found for one_or_none()" (Some 500).
Proof.
  intros Hj Hd He Hs Hlen. unfold Api.request_auth_token.
  rewrite (request_auth_token_object _ _ _ _ _ Hj Hd), He.
  rewrite find_user_database by done.
  destruct (filter_by_email (users ctx) (PyStr e)) as [|u1 [|u2 rows]];
    simpl in Hlen; [lia|lia|]. done.
Qed.

(** X5: an exception raised by the password check is answered with status
    500 and the text of the exception as the error message. *)
Theorem verify_password_exception_is_500 ctx d e u pw ex :
  is_json (request ctx) = true →
  json (request ctx) = Some (PyDict d) →
  d !! "email" = Some (PyStr e) →
  d !! "password" = Some pw →
  Api.session_user ctx (PyStr e) = None →
  filter_by_email (users ctx) (PyStr e) = [u] →
  verify_password pw (password u) = Raise ex →
  auth ctx = Api.errors (str_of_exn ex) (Some 500).
Proof.
  intros Hj Hd He Hp Hs Hf Hv. unfold Api.request_auth_token.
  rewrite (request_auth_token_object _ _ _ _ _ Hj Hd), He.
  rewrite find_user_database by done. rewrite Hf. simpl. rewrite Hp.
  rewrite bool_decide_eq_true_2 by eauto. simpl. by rewrite Hv.
Qed.

End request_auth_token_facts.

Lemma token_only_for_verified_user_witness :
  ∃ u, email u = "test_user@seita.nl" ∧ u ∈ Fixtures.test_users.
Proof.
  destruct (token_only_for_verified_user Fixtures.plain_verify
              Fixtures.token_of Fixtures.str_of Requests.ctx_right_password
              (PyStr "token-2") eq_refl)
    as (u & d & Hjson & He & _ & _ & [Hcu|[Hin _]]).
  - discriminate Hcu.
  - exists u. split; [|exact Hin].
    injection Hjson as <-. by injection He as <-.
Defined.

Lemma errors_without_status_witness :
  status (Api.request_auth_token Fixtures.plain_verify Fixtures.token_of
            Fixtures.str_of Fixtures.ctx_no_password) = None.
Proof.
  refine (proj2 (proj1 (errors_without_status Fixtures.plain_verify
            Fixtures.token_of Fixtures.str_of Fixtures.ctx_no_password _)) _).
  - eexists. by vm_compute.
  - exists {[ "email" := PyStr "test_user@seita.nl" ]}, Fixtures.test_user.
    split_and!; by vm_compute.
Defined.

Lemma body_not_an_object_witness :
  status (Api.request_auth_token Fixtures.plain_verify Fixtures.token_of
            Fixtures.str_of (Requests.ctx_body (PyList [PyStr "email"])))
  = Some 500.
Proof.
  refine (proj2 (body_not_an_object Fixtures.plain_verify Fixtures.token_of
            Fixtures.str_of (Requests.ctx_body (PyList [PyStr "email"]))
            (PyList [PyStr "email"]) eq_refl eq_refl _)).
  intros d. discriminate.
Defined.

Lemma duplicate_email_is_500_witness :
  status (Api.request_auth_token Fixtures.plain_verify Fixtures.token_of
            Fixtures.str_of Requests.ctx_duplicate_email) = Some 500.
Proof.
  rewrite (duplicate_email_is_500 Fixtures.plain_verify Fixtures.token_of
             Fixtures.str_of Requests.ctx_duplicate_email
             {[ "email" := PyStr "test_user@seita.nl";
                "password" := PyStr "testtest" ]}
             "test_user@seita.nl" eq_refl eq_refl eq_refl eq_refl).
  - reflexivity.
  - vm_compute. lia.
Defined.

Lemma verify_password_exception_is_500_witness :
  Api.request_auth_token Requests.broken_verify Fixtures.token_of
    Fixtures.str_of Requests.ctx_right_password
  = Api.errors "hash could not be identified" (Some 500).
Proof.
  by apply (verify_password_exception_is_500 Requests.broken_verify
              Fixtures.token_of Fixtures.str_of Requests.ctx_right_password
              {[ "email" := PyStr "test_user@seita.nl";
                 "password" := PyStr "testtest" ]}
              "test_user@seita.nl" Fixtures.test_user (PyStr "testtest")
              (exception "hash could not be identified")).
Defined.

(** ** Registration of the API *)

Section registration_facts.
Import Registration.

Lemma register_at_added app :
  registered (register_at app) = (registered app ++ added app)%list
  ∧ config (register_at app) = config app
  ∧ added app =
      ([init_app; register_blueprint "bvp_api" "/api";
        register_package "bvp.api.common"]
       ++ (if py_eq_str "play" (config_get app "BVP_MODE" (PyStr ""))
           then [register_package "bvp.api.play"] else [])
       ++ (if is_True (config_get app "BVP_API" (PyBool true))
           then register_package <$> version_packages else []))%list.
Proof.
  unfold added, register_at, config_get. simpl.
  destruct (py_eq_str "play" _); destruct (is_True _); simpl;
    rewrite <- ?(assoc_L (++)); simpl;
    rewrite drop_app_length; done.
Qed.

(** X6: [register_at] always registers the public blueprint under
    [/api], and it changes no configuration.  It registers the four API
    versions, all or none, exactly when [BVP_API] is unset or is the value
    [True] itself (a merely truthy value such as 1 does not count), and
    the play endpoints exactly when [BVP_MODE] equals ["play"]. *)
Theorem register_at_versions app :
  config (register_at app) = config app
  ∧ register_blueprint "bvp_api" "/api" ∈ added app
  ∧ (∀ v, v ∈ version_packages →
       (register_package v ∈ added app ↔
        config app !! "BVP_API" = None
        ∨ config app !! "BVP_API" = Some (PyBool true)))
  ∧ (register_package "bvp.api.play" ∈ added app ↔
     config app !! "BVP_MODE" = Some (PyStr "play")).
Proof.
  destruct (register_at_added app) as (_ & Hc & Ha).
  split; [done|]. rewrite Ha. clear Ha Hc. unfold config_get.
  split; [set_solver|]. split.
  - intros v Hv. destruct (config app !! "BVP_API") as [[| [] | | | | |]|];
      simpl; destruct (py_eq_str "play" _); simpl;
      unfold version_packages in *; set_solver.
  - destruct (config app !! "BVP_MODE") as [m|] eqn:Hm; simpl.
    + destruct (py_eq_str "play" m) eqn:He.
      * apply py_eq_str_true in He as ->.
        destruct (is_True _); simpl; set_solver.
      * assert (m ≠ PyStr "play").
        { intros ->. by vm_compute in He. }
        destruct (is_True _); simpl; unfold version_packages; set_solver.
    + destruct (is_True _); simpl; unfold version_packages; set_solver.
Qed.

(** X17: when [BVP_API] is set to anything but [True], the public
    blueprint is still registered and [get_versions] still lists the four
    versions, while none of their packages has been registered. *)
Theorem listed_versions_not_registered app ctx v :
  config app !! "BVP_API" = Some v → is_True v = false →
  register_blueprint "bvp_api" "/api" ∈ added app
  ∧ body (Api.get_versions ctx) !! "versions"
    = Some (PyList [PyStr "v1"; PyStr "v1_1"; PyStr "v1_2"; PyStr "v1_3"])
  ∧ ∀ p, p ∈ version_packages → register_package p ∉ added app.
Proof.
  intros Hv Hf. destruct (register_at_added app) as (_ & _ & ->).
  unfold config_get. rewrite Hv. simpl. rewrite Hf.
  split; [set_solver|]. split; [done|].
  intros p Hp. unfold version_packages in Hp.
  destruct (py_eq_str "play" _); set_solver.
Qed.

End registration_facts.

Lemma listed_versions_not_registered_witness :
  Registration.register_package "bvp.api.v1" ∉
    Registration.added
      {| Registration.config := {[ "BVP_API" := PyInt 1 ]};
         Registration.registered := [] |}.
Proof.
  refine (proj2 (proj2 (listed_versions_not_registered
           {| Registration.config := {[ "BVP_API" := PyInt 1 ]};
              Registration.registered := [] |}
           Fixtures.ctx_test_user (PyInt 1) _ _)) "bvp.api.v1" _).
  - by vm_compute.
  - reflexivity.
  - by left.
Defined.

(** ** Names and display names *)

Section string_facts.
Import PyString StringPredicates Inflection.

Lemma replace_single_cons o new c s :
  replace (String o EmptyString) new (String c s) =
  if decide (c = o) then new +:+ replace (String o EmptyString) new s
  else String c (replace (String o EmptyString) new s).
Proof.
  unfold replace. simpl.
  destruct (Ascii.ascii_dec o c) as [->|Hne].
  - rewrite decide_True by done. by destruct s.
  - by rewrite decide_False by congruence.
Qed.

Lemma all_chars_app p a b :
  all_chars p (a +:+ b) = all_chars p a && all_chars p b.
Proof.
  induction a as [|c a IH]; simpl; [done|].
  by rewrite IH, andb_assoc.
Qed.

Lemma all_chars_impl (p q : ascii → bool) s :
  (∀ c, p c = true → q c = true) →
  all_chars p s = true → all_chars q s = true.
Proof.
  intros Hpq. induction s as [|c s IH]; simpl; [done|].
  rewrite !andb_true_iff. naive_solver.
Qed.

Lemma all_chars_and (p q : ascii → bool) s :
  all_chars (λ c, p c && q c) s = all_chars p s && all_chars q s.
Proof.
  induction s as [|c s IH]; simpl; [done|]. rewrite IH.
  destruct (p c), (q c), (all_chars p s), (all_chars q s); done.
Qed.

Lemma all_chars_map (p q : ascii → bool) f s :
  (∀ c, p c = true → q (f c) = true) →
  all_chars p s = true → all_chars q (map_chars f s) = true.
Proof.
  intros Hf. induction s as [|c s IH]; simpl; [done|].
  rewrite !andb_true_iff. naive_solver.
Qed.

Lemma map_chars_id (p : ascii → bool) f s :
  (∀ c, p c = true → f c = c) →
  all_chars p s = true → map_chars f s = s.
Proof.
  intros Hf. induction s as [|c s IH]; simpl; [done|].
  rewrite andb_true_iff. intros [Hc Hs]. by rewrite Hf, IH.
Qed.

(** Replacing a character by a text that does not hold it removes it. *)
Lemma replace_single_removes o new s :
  all_chars (is_not o) new = true →
  all_chars (is_not o) (replace (String o EmptyString) new s) = true.
Proof.
  intros Hnew. induction s as [|c s IH]; [done|].
  rewrite replace_single_cons. case_decide as Hc.
  - by rewrite all_chars_app, Hnew, IH.
  - simpl. rewrite IH. unfold is_not. by rewrite bool_decide_eq_false_2.
Qed.

Lemma replace_single_keeps p o new s :
  all_chars p new = true → all_chars p s = true →
  all_chars p (replace (String o EmptyString) new s) = true.
Proof.
  intros Hnew. induction s as [|c s IH]; [done|]. simpl.
  rewrite andb_true_iff. intros [Hc Hs].
  rewrite replace_single_cons. case_decide.
  - by rewrite all_chars_app, Hnew, IH.
  - simpl. by rewrite Hc, IH.
Qed.

Lemma replace_single_absent o new s :
  all_chars (is_not o) s = true → replace (String o EmptyString) new s = s.
Proof.
  induction s as [|c s IH]; [done|]. simpl.
  rewrite andb_true_iff. intros [Hc Hs].
  rewrite replace_single_cons, decide_False, IH; [done..|].
  unfold is_not in Hc. apply negb_true_iff, bool_decide_eq_false in Hc. done.
Qed.

Lemma to_lower_facts c :
  is_upper (to_lower c) = false
  ∧ (is_upper c = false → to_lower c = c)
  ∧ (∀ x, x ∈ [" "; "_"; "-"]%char → is_not x c = true →
       is_not x (to_lower c) = true).
Proof.
  destruct c as [[] [] [] [] [] [] [] []];
    (split; [by vm_compute|split; [by vm_compute|]]);
    intros x Hx; set_unfold in Hx;
    destruct Hx as [->|[->|[->|[]]]]; by vm_compute.
Qed.

Lemma to_upper_facts c x :
  x ∈ ["_"; "-"]%char → is_not x c = true → is_not x (to_upper c) = true.
Proof.
  intros Hx. set_unfold in Hx. destruct Hx as [->|[->|[]]];
    destruct c as [[] [] [] [] [] [] [] []]; by vm_compute.
Qed.

(** The normalisation that the constructors of [AssetType],
    [WeatherSensorType] and [WeatherSensor] apply to a name. *)
Lemma normalise_normalised n :
  normalised (lower (replace " " "_" n)) = true.
Proof.
  unfold normalised, lower.
  apply (all_chars_map (is_not " ")); [|by apply replace_single_removes].
  intros c Hc. destruct (to_lower_facts c) as (-> & _ & Hk). simpl.
  apply Hk; [set_solver|done].
Qed.

Lemma normalise_fixed s :
  normalised s = true → lower (replace " " "_" s) = s.
Proof.
  unfold normalised. rewrite all_chars_and, andb_true_iff. intros [Hu Hs].
  rewrite replace_single_absent by done. unfold lower.
  apply (map_chars_id (λ c, negb (is_upper c))); [|done].
  intros c Hc. apply to_lower_facts. by apply negb_true_iff.
Qed.

Lemma strip_id_keeps p s :
  all_chars p newline = true → all_chars p s = true →
  all_chars p (strip_id s) = true.
Proof.
  intros Hn. induction s as [|c s IH]; [done|].
  intros Hs. simpl strip_id. repeat case_bool_decide; [done..|].
  simpl in *. apply andb_true_iff in Hs as [-> Hs]. by rewrite IH.
Qed.

Lemma upper_first_keeps p s :
  (∀ c, p c = true → p (to_upper c) = true) →
  all_chars p s = true → all_chars p (upper_first s) = true.
Proof.
  intros Hp. destruct s as [|c s]; [done|]. simpl.
  destruct (is_word c); [|done]. simpl.
  rewrite !andb_true_iff. naive_solver.
Qed.

Lemma capitalize_words_keeps p prev2 prev1 s :
  (∀ c, p c = true → p (to_upper c) = true ∧ p (to_lower c) = true) →
  all_chars p s = true → all_chars p (capitalize_words prev2 prev1 s) = true.
Proof.
  intros Hp. revert prev2 prev1.
  induction s as [|c s IH]; intros prev2 prev1; [done|]. simpl.
  rewrite !andb_true_iff. intros [Hc Hs]. split; [|by apply IH].
  destruct (Hp c Hc). by repeat case_match.
Qed.

Lemma humanize_keeps p s :
  p " "%char = true → all_chars p newline = true →
  (∀ c, p c = true → p (to_upper c) = true ∧ p (to_lower c) = true) →
  all_chars p s = true → all_chars p (humanize s) = true.
Proof.
  intros Hsp Hn Hp Hs. unfold humanize.
  apply upper_first_keeps; [naive_solver|]. unfold lower.
  apply (all_chars_map p); [naive_solver|].
  apply replace_single_keeps; [by simpl; rewrite Hsp|].
  by apply strip_id_keeps.
Qed.

Lemma humanize_no_underscore s :
  all_chars (is_not "_") (humanize s) = true.
Proof.
  unfold humanize.
  apply upper_first_keeps; [intros c; apply to_upper_facts; set_solver|].
  unfold lower. apply (all_chars_map (is_not "_")).
  - intros c. apply to_lower_facts. set_solver.
  - by apply replace_single_removes.
Qed.

Lemma underscore_no_hyphen s :
  all_chars (is_not "-") (underscore s) = true.
Proof.
  unfold underscore, lower. apply (all_chars_map (is_not "-")).
  - intros c. apply to_lower_facts. set_solver.
  - by apply replace_single_removes.
Qed.

Lemma title_from_keeps p cased s :
  (∀ c, p c = true → p (to_upper c) = true ∧ p (to_lower c) = true) →
  all_chars p s = true → all_chars p (title_from cased s) = true.
Proof.
  intros Hp. revert cased.
  induction s as [|c s IH]; intros cased; [done|]. simpl.
  rewrite andb_true_iff. intros [Hc Hs]. destruct (Hp c Hc).
  repeat case_match; simpl; rewrite IH by done; by rewrite ?andb_true_r.
Qed.

Lemma titleize_no_separator s :
  all_chars (λ c, is_not "_" c && is_not "-" c) (titleize s) = true.
Proof.
  assert (Hcase : ∀ x, x ∈ ["_"; "-"]%char → ∀ c, is_not x c = true →
            is_not x (to_upper c) = true ∧ is_not x (to_lower c) = true).
  { intros x Hx c Hc. split; [by apply to_upper_facts|].
    apply to_lower_facts; [set_solver|done]. }
  unfold titleize, title. rewrite all_chars_and, andb_true_iff. split.
  - apply capitalize_words_keeps; [apply Hcase; set_solver|].
    apply title_from_keeps; [apply Hcase; set_solver|].
    apply humanize_no_underscore.
  - apply capitalize_words_keeps; [apply Hcase; set_solver|].
    apply title_from_keeps; [apply Hcase; set_solver|].
    apply humanize_keeps; [done|done|apply Hcase; set_solver|].
    apply underscore_no_hyphen.
Qed.

Lemma append_cons c (a b : string) : String c a +:+ b = String c (a +:+ b).
Proof. reflexivity. Qed.

Lemma prefix_spec old s :
  String.prefix old s = true ↔ ∃ post, s = old +:+ post.
Proof.
  revert s. induction old as [|o old IH]; intros s.
  - split; [intros _; by exists s | by destruct s].
  - destruct s as [|c s]; simpl; [split; [done|by intros [? ?]]|].
    destruct (Ascii.ascii_dec o c) as [->|Hne].
    + rewrite IH. split; intros [post Hp]; exists post.
      * by rewrite Hp.
      * rewrite append_cons in Hp. by simplify_eq.
    + split; [done|]. intros [post Hp]. rewrite append_cons in Hp.
      by simplify_eq.
Qed.

Lemma occurs_spec old s :
  occurs old s = true ↔ ∃ pre post, s = pre +:+ old +:+ post.
Proof.
  induction s as [|c s IH].
  - cbn [occurs]. rewrite orb_false_r, prefix_spec. split.
    + intros [post Hp]. by exists "", post.
    + intros (pre & post & Hp). destruct pre; [by exists post|done].
  - cbn [occurs]. rewrite orb_true_iff, prefix_spec, IH. split.
    + intros [[post Hp]|(pre & post & Hp)].
      * by exists "", post.
      * exists (String c pre), post. by rewrite append_cons, Hp.
    + intros (pre & post & Hp). destruct pre as [|c' pre].
      * left. by exists post.
      * right. exists pre, post. rewrite append_cons in Hp. by simplify_eq.
Qed.

Lemma replace_absent old new s :
  occurs old s = false → replace old new s = s.
Proof.
  unfold replace. induction s as [|c s IH]; [done|].
  cbn [occurs]. rewrite orb_false_iff. intros [Hp Hs].
  cbn [replace_from]. by rewrite Hp, IH.
Qed.

Lemma append_nil (b : string) : "" +:+ b = b.
Proof. reflexivity. Qed.

Lemma replace_from_length old skip s :
  (String.length (replace_from old "" skip s) ≤ String.length s - skip)%nat.
Proof.
  revert skip. induction s as [|c s IH]; intros skip;
    cbn [replace_from String.length]; [lia|].
  destruct skip as [|k].
  - destruct (String.prefix old (String c s)).
    + rewrite append_nil.
      specialize (IH (String.length old - 1)%nat). lia.
    + specialize (IH 0%nat). cbn [String.length]. lia.
  - apply IH.
Qed.

Lemma replace_shorter old s :
  old ≠ "" →
  occurs old s = true →
  (String.length (replace old "" s) < String.length s)%nat.
Proof.
  intros Hold. unfold replace. induction s as [|c s IH].
  - cbn [occurs]. rewrite orb_false_r. by destruct old.
  - cbn [occurs]. rewrite orb_true_iff. intros Ho.
    cbn [replace_from String.length].
    destruct (String.prefix old (String c s)) eqn:Hp.
    + rewrite append_nil.
      pose proof (replace_from_length old (String.length old - 1) s). lia.
    + destruct Ho as [?|Ho]; [done|]. specialize (IH Ho).
      cbn [String.length]. lia.
Qed.

End string_facts.

Section model_facts.
Import PyString StringPredicates Inflection.

(** X7: the names stored by the constructors of [AssetType],
    [WeatherSensorType] and [WeatherSensor] hold no space and no capital
    letter, and constructing again from a stored name leaves it as it
    is. *)
Theorem constructed_names_normalised :
  (∀ kw t, Assets.AssetType_init kw = Ok t →
     normalised (Assets.type_name t) = true
     ∧ lower (replace " " "_" (Assets.type_name t)) = Assets.type_name t)
  ∧ (∀ humanize kw t, Weather.WeatherSensorType_init humanize kw = Ok t →
       normalised (Weather.type_name t) = true
       ∧ lower (replace " " "_" (Weather.type_name t)) = Weather.type_name t)
  ∧ (∀ kw w, Weather.WeatherSensor_init kw = Ok w →
       normalised (Weather.name w) = true
       ∧ lower (replace " " "_" (Weather.name w)) = Weather.name w).
Proof.
  split_and!.
  - intros kw t. unfold Assets.AssetType_init.
    destruct (Assets.at_name kw) as [n|]; [|done]. intros [= <-]. simpl.
    split; [apply normalise_normalised|].
    apply normalise_fixed, normalise_normalised.
  - intros humanize kw t. unfold Weather.WeatherSensorType_init.
    destruct (Weather.wt_name kw) as [n|]; [|done]. intros [= <-]. simpl.
    split; [apply normalise_normalised|].
    apply normalise_fixed, normalise_normalised.
  - intros kw w. unfold Weather.WeatherSensor_init.
    destruct (Weather.ws_name kw) as [n|]; [|done]. intros [= <-]. simpl.
    split; [apply normalise_normalised|].
    apply normalise_fixed, normalise_normalised.
Qed.

(** X8: a display name that a constructor derives from the name holds no
    underscore, and for an [Asset] no hyphen either; the same goes for
    [asset_type_display_name]. *)
Theorem derived_display_names :
  (∀ kw t, Assets.AssetType_init kw = Ok t →
     Assets.at_display_name kw = None →
     ∃ d, Assets.type_display_name t = Some d
       ∧ all_chars (is_not "_") d = true)
  ∧ (∀ kw a, Assets.Asset_init kw = Ok a →
       Assets.kw_display_name kw = None
       ∨ Assets.kw_display_name kw = Some "" →
       ∃ d, Assets.display_name a = Some d
         ∧ all_chars (λ c, is_not "_" c && is_not "-" c) d = true)
  ∧ (∀ a, all_chars (λ c, is_not "_" c && is_not "-" c)
            (AssetViews.asset_type_display_name a) = true).
Proof.
  split_and!.
  - intros kw t. unfold Assets.AssetType_init.
    destruct (Assets.at_name kw) as [n|]; [|done]. intros [= <-] Hd. simpl.
    rewrite Hd. eexists. split; [done|]. apply humanize_no_underscore.
  - intros kw a. unfold Assets.Asset_init.
    destruct (Assets.kw_name kw) as [n|]; [|done]. intros [= <-] Hd. simpl.
    exists (titleize (replace " (MW)" "" n)).
    split; [|apply titleize_no_separator].
    by destruct Hd as [-> | ->].
  - intros a. apply titleize_no_separator.
Qed.

Lemma first_char_facts c :
  is_lower (to_upper c) = false ∧ (is_word c = false → is_lower c = false).
Proof. destruct c as [[] [] [] [] [] [] [] []]; by vm_compute. Qed.

Lemma humanize_first s c r : humanize s = String c r → is_lower c = false.
Proof.
  unfold humanize.
  destruct (lower (replace "_" " " (strip_id s))) as [|c0 x]; [done|].
  simpl. destruct (is_word c0) eqn:Hw; intros [= <- _].
  - apply (proj1 (first_char_facts c0)).
  - apply (proj2 (first_char_facts c0) Hw).
Qed.

Lemma titled_first_char c0 :
  let c1 := if is_lower c0 then to_upper c0 else c0 in
  is_lower (if is_word c1 then to_upper c1 else c1) = false.
Proof. destruct c0 as [[] [] [] [] [] [] [] []]; by vm_compute. Qed.

Lemma titleize_first s c r : titleize s = String c r → is_lower c = false.
Proof.
  unfold titleize, title. destruct (humanize (underscore s)) as [|c0 x]; [done|].
  pose proof (titled_first_char c0) as Hc. simpl in Hc.
  simpl. destruct (is_lower c0) eqn:Hl; [|destruct (is_upper c0)];
    simpl; rewrite andb_true_r; intros [= <- _]; exact Hc.
Qed.

(** X16: a display name that a constructor derives from the name never
    starts with one of the small letters a to z. *)
Theorem derived_display_names_capitalised :
  (∀ kw t c r, Assets.AssetType_init kw = Ok t →
     Assets.at_display_name kw = None →
     Assets.type_display_name t = Some (String c r) → is_lower c = false)
  ∧ (∀ kw a c r, Assets.Asset_init kw = Ok a →
       Assets.kw_display_name kw = None
       ∨ Assets.kw_display_name kw = Some "" →
       Assets.display_name a = Some (String c r) → is_lower c = false).
Proof.
  split.
  - intros kw t c r. unfold Assets.AssetType_init.
    destruct (Assets.at_name kw) as [n|]; [|done]. intros [= <-] Hd. simpl.
    rewrite Hd. intros [= H]. by eapply humanize_first.
  - intros kw a c r. unfold Assets.Asset_init.
    destruct (Assets.kw_name kw) as [n|]; [|done]. intros [= <-] Hd. simpl.
    assert (∀ d, d = Some (titleize (replace " (MW)" "" n)) →
                 d = Some (String c r) → is_lower c = false) as Hkey.
    { intros d -> [= H]. by eapply titleize_first. }
    destruct Hd as [-> | ->]; by apply Hkey.
Qed.

(** X9: the name of a constructed asset is the given name exactly when
    [" (MW)"] does not occur in the given name, and it is never longer. *)
Theorem asset_name_kept kw n a :
  Assets.kw_name kw = Some n →
  Assets.Asset_init kw = Ok a →
  (Assets.name a = n ↔ ¬ ∃ pre post, n = pre +:+ " (MW)" +:+ post)
  ∧ (String.length (Assets.name a) ≤ String.length n)%nat.
Proof.
  intros Hn. unfold Assets.Asset_init. rewrite Hn. intros [= <-]. simpl.
  rewrite <- occurs_spec. split.
  - destruct (occurs " (MW)" n) eqn:Ho.
    + pose proof (replace_shorter " (MW)" n ltac:(done) Ho) as Hlt.
      split; [|done]. intros Heq. rewrite Heq in Hlt. lia.
    + split; [done|]. intros _. by apply replace_absent.
  - pose proof (replace_from_length " (MW)" 0 n). unfold replace. lia.
Qed.

(** X10: an asset type has an icon exactly when it has a known weather
    correlation, and it never has more than one correlation. *)
Theorem icon_iff_weather_correlation (t : Assets.AssetType) :
  (is_Some (AssetViews.icon_name t) ↔ AssetViews.weather_correlations t ≠ [])
  ∧ (length (AssetViews.weather_correlations t) ≤ 1)%nat.
Proof.
  unfold AssetViews.icon_name, AssetViews.weather_correlations.
  generalize (Assets.type_name t). intros n.
  destruct (decide (n ∈ ["solar"; "wind"; "charging_station";
                         "bidirectional_charging_station"; "battery";
                         "building"])) as [Hn|Hn].
  - set_unfold in Hn.
    destruct Hn as [->|[->|[->|[->|[->|[->|[]]]]]]]; vm_compute;
      (split; [split; [done|eauto]|lia]).
  - rewrite !decide_False by set_solver. simpl.
    split; [|lia]. split; [by intros [? ?]|done].
Qed.

(** X11: an asset is never both a pure consumer and a pure producer, and
    it is one of the two exactly when its type is a consumer or a producer
    but not both. *)
Theorem pure_consumer_or_producer (t : Assets.AssetType) :
  ¬ (AssetViews.is_pure_consumer t = true
     ∧ AssetViews.is_pure_producer t = true)
  ∧ AssetViews.is_pure_consumer t || AssetViews.is_pure_producer t
    = xorb (Assets.is_consumer t) (Assets.is_producer t).
Proof.
  unfold AssetViews.is_pure_consumer, AssetViews.is_pure_producer.
  destruct (Assets.is_consumer t), (Assets.is_producer t); naive_solver.
Qed.

End model_facts.

Lemma asset_name_kept_witness :
  ∃ a, Assets.Asset_init (Fixtures.asset_kwargs (Some "wind-onshore 1") None)
       = Ok a
    ∧ Assets.name a = "wind-onshore 1".
Proof.
  eexists. split; [reflexivity|].
  apply (asset_name_kept (Fixtures.asset_kwargs (Some "wind-onshore 1") None)
           "wind-onshore 1" _ eq_refl eq_refl).
  rewrite <- occurs_spec. by vm_compute.
Defined.

(** ** The migration *)

Section migration_facts.
Import Migration.

Lemma alter_column_ok table col b (s s' : gmap string Table) :
  alter_column table col b s = Ok s' ↔
  ∃ t, s !! table = Some t
    ∧ is_Some (columns t !! col)
    ∧ (b = false → col ∉ nulls t)
    ∧ s' = <[ table := set_nullable col b t ]> s.
Proof.
  unfold alter_column. split.
  - destruct (s !! table) as [t|]; [|done].
    destruct (columns t !! col) eqn:Hc; [|done].
    destruct b; simpl.
    + intros [= <-]. exists t. by rewrite Hc.
    + case_bool_decide; [done|]. intros [= <-]. exists t. by rewrite Hc.
  - intros (t & -> & [c ->] & Hb & ->).
    destruct b; simpl; [done|]. by rewrite bool_decide_eq_false_2 by auto.
Qed.

Lemma drop_table_ok name (s s' : gmap string Table) :
  drop_table name s = Ok s' ↔ is_Some (s !! name) ∧ s' = delete name s.
Proof.
  unfold drop_table. destruct (s !! name); split;
    naive_solver.
Qed.

Lemma create_table_ok name cols pk (s s' : gmap string Table) :
  create_table name cols pk s = Ok s' ↔
  s !! name = None
  ∧ s' = <[ name := {| columns := list_to_map cols; primary_key := Some pk;
                       rows := 0; nulls := ∅ |} ]> s.
Proof.
  unfold create_table. destruct (s !! name); split; naive_solver.
Qed.

(** What a successful [upgrade] needs and gives. *)
Lemma upgrade_ok (s s' : gmap string Table) :
  upgrade s = Ok s' →
  is_Some (s !! "forecasting_job")
  ∧ (∀ tbl, tbl ∈ display_name_tables → has_display_name s tbl)
  ∧ s' !! "forecasting_job" = None
  ∧ (∀ tbl, tbl ∈ display_name_tables →
       s' !! tbl = set_nullable "display_name" true <$> s !! tbl)
  ∧ (∀ name, name ∉ "forecasting_job" :: display_name_tables →
       s' !! name = s !! name).
Proof.
  unfold upgrade. intros H.
  destruct (drop_table "forecasting_job" s) as [s1|] eqn:H1; [|done].
  simpl in H.
  destruct (alter_column "asset_type" _ _ s1) as [s2|] eqn:H2; [|done].
  simpl in H.
  destruct (alter_column "market" _ _ s2) as [s3|] eqn:H3; [|done].
  simpl in H.
  destruct (alter_column "market_type" _ _ s3) as [s4|] eqn:H4; [|done].
  simpl in H.
  apply drop_table_ok in H1 as [Hfj ->].
  apply alter_column_ok in H2 as (t1 & Ht1 & Hc1 & _ & ->).
  apply alter_column_ok in H3 as (t2 & Ht2 & Hc2 & _ & ->).
  apply alter_column_ok in H4 as (t3 & Ht3 & Hc3 & _ & ->).
  apply alter_column_ok in H as (t4 & Ht4 & Hc4 & _ & ->).
  simplify_map_eq.
  split; [done|]. unfold display_name_tables, has_display_name.
  split_and!.
  - intros tbl Htbl. set_unfold in Htbl.
    destruct Htbl as [->|[->|[->|[->|[]]]]]; eauto.
  - done.
  - intros tbl Htbl. set_unfold in Htbl.
    destruct Htbl as [->|[->|[->|[->|[]]]]]; by simplify_map_eq.
  - intros name Hname. set_unfold in Hname.
    rewrite !lookup_insert_ne, lookup_delete_ne by naive_solver. done.
Qed.

Lemma in_display_name_tables tbl :
  tbl ∈ display_name_tables ↔
  tbl = "asset_type" ∨ tbl = "market" ∨ tbl = "market_type"
  ∨ tbl = "weather_sensor_type".
Proof. unfold display_name_tables. set_solver. Qed.

Lemma upgrade_succeeds (s : gmap string Table) :
  is_Some (s !! "forecasting_job") →
  (∀ tbl, tbl ∈ display_name_tables → has_display_name s tbl) →
  ∃ s', upgrade s = Ok s'.
Proof.
  intros Hfj Hd. unfold upgrade.
  destruct (Hd "asset_type") as (t1 & Ht1 & Hc1); [set_solver|].
  destruct (Hd "market") as (t2 & Ht2 & Hc2); [set_solver|].
  destruct (Hd "market_type") as (t3 & Ht3 & Hc3); [set_solver|].
  destruct (Hd "weather_sensor_type") as (t4 & Ht4 & Hc4); [set_solver|].
  rewrite (proj2 (drop_table_ok _ _ _) (conj Hfj eq_refl)). simpl.
  erewrite (proj2 (alter_column_ok "asset_type" _ _ _ _)); last first.
  { exists t1. by simplify_map_eq. }
  simpl.
  erewrite (proj2 (alter_column_ok "market" _ _ _ _)); last first.
  { exists t2. by simplify_map_eq. }
  simpl.
  erewrite (proj2 (alter_column_ok "market_type" _ _ _ _)); last first.
  { exists t3. by simplify_map_eq. }
  simpl.
  erewrite (proj2 (alter_column_ok "weather_sensor_type" _ _ _ _)); last first.
  { exists t4. by simplify_map_eq. }
  eauto.
Qed.

(** What a successful [downgrade] needs and gives. *)
Lemma downgrade_ok (s s' : gmap string Table) :
  downgrade s = Ok s' →
  s !! "forecasting_job" = None
  ∧ (∀ tbl, tbl ∈ display_name_tables →
       ∃ t, s !! tbl = Some t ∧ is_Some (columns t !! "display_name")
         ∧ "display_name" ∉ nulls t)
  ∧ s' !! "forecasting_job" = Some forecasting_job
  ∧ (∀ tbl, tbl ∈ display_name_tables →
       s' !! tbl = set_nullable "display_name" false <$> s !! tbl)
  ∧ (∀ name, name ∉ "forecasting_job" :: display_name_tables →
       s' !! name = s !! name).
Proof.
  unfold downgrade. intros H.
  destruct (alter_column "weather_sensor_type" _ _ s) as [s1|] eqn:H1;
    [|done].
  simpl in H.
  destruct (alter_column "market_type" _ _ s1) as [s2|] eqn:H2; [|done].
  simpl in H.
  destruct (alter_column "market" _ _ s2) as [s3|] eqn:H3; [|done].
  simpl in H.
  destruct (alter_column "asset_type" _ _ s3) as [s4|] eqn:H4; [|done].
  simpl in H.
  apply alter_column_ok in H1 as (t1 & Ht1 & Hc1 & Hn1 & ->).
  apply alter_column_ok in H2 as (t2 & Ht2 & Hc2 & Hn2 & ->).
  apply alter_column_ok in H3 as (t3 & Ht3 & Hc3 & Hn3 & ->).
  apply alter_column_ok in H4 as (t4 & Ht4 & Hc4 & Hn4 & ->).
  apply create_table_ok in H as [Hfj ->].
  simplify_map_eq. split; [done|].
  split_and!.
  - intros tbl Htbl. apply in_display_name_tables in Htbl.
    destruct Htbl as [->|[->|[->| ->]]]; eauto.
  - done.
  - intros tbl Htbl. apply in_display_name_tables in Htbl.
    destruct Htbl as [->|[->|[->| ->]]]; by simplify_map_eq.
  - intros name Hname. set_unfold in Hname.
    rewrite !lookup_insert_ne by naive_solver. done.
Qed.

Lemma downgrade_succeeds (s : gmap string Table) :
  s !! "forecasting_job" = None →
  (∀ tbl, tbl ∈ display_name_tables →
     ∃ t, s !! tbl = Some t ∧ is_Some (columns t !! "display_name")
       ∧ "display_name" ∉ nulls t) →
  ∃ s', downgrade s = Ok s'.
Proof.
  intros Hfj Hd. unfold downgrade.
  destruct (Hd "asset_type") as (t1 & Ht1 & Hc1 & Hn1); [set_solver|].
  destruct (Hd "market") as (t2 & Ht2 & Hc2 & Hn2); [set_solver|].
  destruct (Hd "market_type") as (t3 & Ht3 & Hc3 & Hn3); [set_solver|].
  destruct (Hd "weather_sensor_type") as (t4 & Ht4 & Hc4 & Hn4);
    [set_solver|].
  erewrite (proj2 (alter_column_ok "weather_sensor_type" _ _ _ _)); last first.
  { exists t4. by simplify_map_eq. }
  simpl.
  erewrite (proj2 (alter_column_ok "market_type" _ _ _ _)); last first.
  { exists t3. by simplify_map_eq. }
  simpl.
  erewrite (proj2 (alter_column_ok "market" _ _ _ _)); last first.
  { exists t2. by simplify_map_eq. }
  simpl.
  erewrite (proj2 (alter_column_ok "asset_type" _ _ _ _)); last first.
  { exists t1. by simplify_map_eq. }
  simpl.
  erewrite (proj2 (create_table_ok _ _ _ _ _)); [eauto|].
  split; [|done]. by simplify_map_eq.
Qed.

Lemma set_nullable_twice col b b' t :
  set_nullable col b (set_nullable col b' t) = set_nullable col b t.
Proof.
  unfold set_nullable. simpl. f_equal.
  apply map_eq. intros k. rewrite !lookup_alter.
  case_decide; [|done]. rewrite decide_True by done.
  by destruct (columns t !! col).
Qed.

Lemma set_nullable_same col b t :
  set_nullable col b t = t ↔
  ∀ c, columns t !! col = Some c → nullable c = b.
Proof.
  split.
  - intros Ht c Hc.
    assert (Hl : columns (set_nullable col b t) !! col = columns t !! col)
      by (by rewrite Ht).
    simpl in Hl. rewrite lookup_alter, decide_True, Hc in Hl by done.
    simpl in Hl. injection Hl as Hl. by rewrite <- Hl.
  - intros Hc. destruct t as [cols pk r n]. unfold set_nullable. simpl in *.
    f_equal. apply map_eq. intros k. rewrite lookup_alter.
    case_decide as Hk; [|done]. subst k.
    destruct (cols !! col) as [c|] eqn:Hcol; [|done]. simpl.
    specialize (Hc c eq_refl). destruct c. simpl in *. by subst.
Qed.

(** X12: [upgrade] succeeds exactly when [forecasting_job] exists and the
    four tables have a [display_name] column.  It then removes
    [forecasting_job], makes the four [display_name] columns nullable and
    leaves every other table, and everything else in the four, as it
    was. *)
Theorem upgrade_effect (s : gmap string Table) :
  ((∃ s', upgrade s = Ok s') ↔
   is_Some (s !! "forecasting_job")
   ∧ ∀ tbl, tbl ∈ display_name_tables → has_display_name s tbl)
  ∧ (∀ s', upgrade s = Ok s' →
       s' !! "forecasting_job" = None
       ∧ (∀ tbl, tbl ∈ display_name_tables →
            s' !! tbl = set_nullable "display_name" true <$> s !! tbl)
       ∧ (∀ name, name ∉ "forecasting_job" :: display_name_tables →
            s' !! name = s !! name)).
Proof.
  split.
  - split.
    + intros [s' H]. by apply upgrade_ok in H as (? & ? & _).
    + intros [? ?]. by apply upgrade_succeeds.
  - intros s' H. by apply upgrade_ok in H as (_ & _ & ? & ? & ?).
Qed.

(** X13: after a successful [upgrade], and as long as none of the four
    [display_name] columns holds NULL, [downgrade] succeeds: it recreates
    [forecasting_job] as an empty table, makes the four columns NOT NULL
    and leaves the rest as it was before the upgrade.  The result is the
    schema from before the upgrade exactly when that schema had the
    empty [forecasting_job] table that [downgrade] creates and the four
    columns were NOT NULL. *)
Theorem upgrade_then_downgrade (s s' : gmap string Table) :
  upgrade s = Ok s' →
  (∀ tbl t, tbl ∈ display_name_tables → s !! tbl = Some t →
     "display_name" ∉ nulls t) →
  ∃ s'', downgrade s' = Ok s''
    ∧ s'' !! "forecasting_job" = Some forecasting_job
    ∧ (∀ tbl, tbl ∈ display_name_tables →
         s'' !! tbl = set_nullable "display_name" false <$> s !! tbl)
    ∧ (∀ name, name ∉ "forecasting_job" :: display_name_tables →
         s'' !! name = s !! name)
    ∧ (s'' = s ↔
       s !! "forecasting_job" = Some forecasting_job
       ∧ ∀ tbl t c, tbl ∈ display_name_tables → s !! tbl = Some t →
           columns t !! "display_name" = Some c → nullable c = false).
Proof.
  intros Hup Hnulls.
  apply upgrade_ok in Hup as (Hfj & Hd & Hfj' & Hfour & Hrest).
  destruct (downgrade_succeeds s') as [s'' Hdown].
  { done. }
  { intros tbl Htbl. destruct (Hd tbl Htbl) as (t & Ht & Hc).
    exists (set_nullable "display_name" true t).
    rewrite (Hfour tbl Htbl), Ht. split; [done|].
    split; [|by apply (Hnulls tbl t)].
    simpl. rewrite lookup_alter, decide_True by done.
    destruct Hc as [c ->]. by eexists. }
  exists s''. split; [done|].
  apply downgrade_ok in Hdown as (_ & _ & Hfj'' & Hfour' & Hrest').
  assert (Hfour'' : ∀ tbl, tbl ∈ display_name_tables →
            s'' !! tbl = set_nullable "display_name" false <$> s !! tbl).
  { intros tbl Htbl. rewrite (Hfour' tbl Htbl), (Hfour tbl Htbl).
    destruct (s !! tbl); [|done]. simpl. by rewrite set_nullable_twice. }
  assert (Hrest'' : ∀ name, name ∉ "forecasting_job" :: display_name_tables →
            s'' !! name = s !! name).
  { intros name Hname. by rewrite Hrest', Hrest. }
  split_and!; [done..|]. split.
  - intros ->. split; [done|]. intros tbl t c Htbl Ht Hc.
    specialize (Hfour'' tbl Htbl). rewrite Ht in Hfour''. simpl in Hfour''.
    injection Hfour'' as Hs. symmetry in Hs.
    by apply (proj1 (set_nullable_same _ _ _) Hs).
  - intros [Hjob Hnot]. apply map_eq. intros name.
    destruct (decide (name = "forecasting_job")) as [->|Hne];
      [by rewrite Hfj'', Hjob|].
    destruct (decide (name ∈ display_name_tables)) as [Hin|Hnin].
    + rewrite (Hfour'' name Hin). destruct (s !! name) as [t|] eqn:Ht; [|done].
      simpl. f_equal. apply set_nullable_same. eauto.
    + apply Hrest''. set_solver.
Qed.

(** X14: after a successful [downgrade], [upgrade] succeeds, and it gives
    back the schema from before the downgrade exactly when the four
    [display_name] columns were nullable in it. *)
Theorem downgrade_then_upgrade (s s' : gmap string Table) :
  downgrade s = Ok s' →
  ∃ s'', upgrade s' = Ok s''
    ∧ (s'' = s ↔
       ∀ tbl t c, tbl ∈ display_name_tables → s !! tbl = Some t →
         columns t !! "display_name" = Some c → nullable c = true).
Proof.
  intros Hdown.
  apply downgrade_ok in Hdown as (Hfj & Hd & Hfj' & Hfour & Hrest).
  destruct (upgrade_succeeds s') as [s'' Hup].
  { by rewrite Hfj'. }
  { intros tbl Htbl. destruct (Hd tbl Htbl) as (t & Ht & Hc & _).
    exists (set_nullable "display_name" false t).
    rewrite (Hfour tbl Htbl), Ht. split; [done|].
    simpl. rewrite lookup_alter, decide_True by done.
    destruct Hc as [c ->]. by eexists. }
  exists s''. split; [done|].
  apply upgrade_ok in Hup as (_ & _ & Hfj'' & Hfour' & Hrest').
  assert (Hfour'' : ∀ tbl, tbl ∈ display_name_tables →
            s'' !! tbl = set_nullable "display_name" true <$> s !! tbl).
  { intros tbl Htbl. rewrite (Hfour' tbl Htbl), (Hfour tbl Htbl).
    destruct (s !! tbl); [|done]. simpl. by rewrite set_nullable_twice. }
  split.
  - intros ->. intros tbl t c Htbl Ht Hc.
    specialize (Hfour'' tbl Htbl). rewrite Ht in Hfour''. simpl in Hfour''.
    injection Hfour'' as Hs. symmetry in Hs.
    by apply (proj1 (set_nullable_same _ _ _) Hs).
  - intros Hnull. apply map_eq. intros name.
    destruct (decide (name = "forecasting_job")) as [->|Hne];
      [by rewrite Hfj'', Hfj|].
    destruct (decide (name ∈ display_name_tables)) as [Hin|Hnin].
    + rewrite (Hfour'' name Hin). destruct (s !! name) as [t|] eqn:Ht; [|done].
      simpl. f_equal. apply set_nullable_same. eauto.
    + rewrite Hrest', Hrest by set_solver. done.
Qed.

(** X15: neither direction of the migration can be run twice in a row:
    [upgrade] raises on a schema that [upgrade] produced, and so does
    [downgrade] on a schema that [downgrade] produced. *)
Theorem migration_not_repeatable (s s' : gmap string Table) :
  (upgrade s = Ok s' → ∃ e, upgrade s' = Raise e)
  ∧ (downgrade s = Ok s' → ∃ e, downgrade s' = Raise e).
Proof.
  split; intros H.
  - apply upgrade_ok in H as (_ & _ & Hfj & _).
    destruct (upgrade s') as [s''|e] eqn:H'; [|eauto].
    apply upgrade_ok in H' as ([t Ht] & _). congruence.
  - apply downgrade_ok in H as (_ & _ & Hfj & _).
    destruct (downgrade s') as [s''|e] eqn:H'; [|eauto].
    apply downgrade_ok in H' as (Hnone & _). congruence.
Qed.

End migration_facts.

Lemma upgrade_then_downgrade_witness :
  ∃ s' s'', Migration.upgrade Migration.schema_before = Ok s'
    ∧ Migration.downgrade s' = Ok s''
    ∧ s'' ≠ Migration.schema_before.
Proof.
  destruct (proj2 (proj1 (upgrade_effect Migration.schema_before)))
    as [s' Hup].
  { split; [by eexists|].
    intros tbl Htbl. apply in_display_name_tables in Htbl.
    destruct Htbl as [->|[->|[->| ->]]];
      (exists Migration.named_table; split; [done|by eexists]). }
  destruct (upgrade_then_downgrade Migration.schema_before s' Hup)
    as (s'' & Hdown & _ & _ & _ & Heq).
  { intros tbl t Htbl. apply in_display_name_tables in Htbl.
    destruct Htbl as [->|[->|[->| ->]]]; intros [= <-]; set_solver. }
  exists s', s''. split; [exact Hup|]. split; [exact Hdown|].
  intros Hs. apply Heq in Hs as [Hjob _]. discriminate Hjob.
Defined.

Lemma downgrade_then_upgrade_witness :
  ∃ s, Migration.downgrade (delete "forecasting_job" Migration.schema_before)
       = Ok s
    ∧ ∃ s', Migration.upgrade s = Ok s'.
Proof.
  eexists. split; [by vm_compute|].
  match goal with |- ∃ s', Migration.upgrade ?s = _ =>
    destruct (downgrade_then_upgrade
                (delete "forecasting_job" Migration.schema_before) s)
      as (s' & Hup & _); [by vm_compute|by exists s']
  end.
Defined.

Lemma migration_not_repeatable_witness :
  ∃ s' e, Migration.upgrade Migration.schema_before = Ok s'
    ∧ Migration.upgrade s' = Raise e.
Proof.
  destruct (proj2 (proj1 (upgrade_effect Migration.schema_before)))
    as [s' Hup].
  { split; [by eexists|].
    intros tbl Htbl. apply in_display_name_tables in Htbl.
    destruct Htbl as [->|[->|[->| ->]]];
      (exists Migration.named_table; split; [done|by eexists]). }
  destruct (proj1 (migration_not_repeatable Migration.schema_before s') Hup)
    as [e He].
  by exists s', e.
Defined.
